(** * HexCaster DSP core: a shallow embedding and its verified properties

    The development follows the C++ sources of the repository:

    - [param_smoother.cpp], [param_smoother.h] -> [Module ParamSmoother]
    - [gain_stage.cpp], [gain_stage.h]         -> [Module GainStage]
    - [param_id.h]                             -> [Module ParamId]
    - [param_registry.cpp], [param_registry.h] -> [Module ParamRegistry]
    - [processor_stage.h], [pipeline.h], [pipeline.cpp]
                                               -> [Module Pipeline]
    - [nam_stage.cpp], [nam_stage.h]           -> [Module NamStage],
                                                  [Module NamStores]
    - [hexcaster_lv2.cpp]                      -> [Module HexCasterLV2],
                                                  [Module PluginChain]

    Numeric conventions.  A C++ [float] is idealised as a real number:
    a literal such as [1e-3f] denotes the real it spells, [+], [*], [/]
    are exact, [std::pow(10.f, x)] is [Rpower 10 x], [std::exp] is [exp]
    and [std::log10 x] is [ln x / ln 10].  Rounding, infinities and NaN
    are outside the model: every float argument of a statement is a
    number, and where the code compares ([std::clamp], [std::max]) a NaN
    would pass through unchanged.  A C++ [int] is a [Z]; a [for] loop with an
    [int] counter running from [0] below a bound is [for_loop].  A
    [float*] buffer is a [list R] updated in place by index. *)

From Stdlib Require Import Reals Lra Lia ZArith List String.
From stdpp Require Import base list.
Import ListNotations.

Open Scope R_scope.

(** ** Shared vocabulary *)

(** [for (int i = 0; i < n; ++i) body(i)] threading the mutated state. *)
Fixpoint for_from {St : Type} (count i : nat) (body : nat -> St -> St) (s : St)
  : St :=
  match count with
  | O => s
  | S c => for_from c (S i) body (body i s)
  end.

Definition for_loop {St : Type} (n : Z) (body : nat -> St -> St) (s : St) : St :=
  for_from (Z.to_nat n) 0 body s.

#[global] Instance R_inhabited : Inhabited R := populate 0.

(** [std::clamp(v, lo, hi)]: [(v < lo) ? lo : (hi < v) ? hi : v], for
    numbers; both comparisons fail on a NaN [v], which the code hands
    back. *)
Definition std_clamp (v lo hi : R) : R :=
  if Rlt_dec v lo then lo else if Rlt_dec hi v then hi else v.

(** [std::max(a, b)]: [(a < b) ? b : a], for numbers; the comparison
    fails on a NaN [a], which the code hands back. *)
Definition std_max (a b : R) : R :=
  if Rlt_dec a b then b else a.

(** [std::pow(10.f, x)]. *)
Definition pow10 (x : R) : R := Rpower 10 x.

(** [std::log10(x)]. *)
Definition log10 (x : R) : R := ln x / ln 10.

(** ** ParamSmoother (param_smoother.cpp, param_smoother.h) *)

Module ParamSmoother.

Record t : Type := mk {
  current_ : R;
  target_  : R;
  coeff_   : R   (* EMA coefficient (1 - alpha) *)
}.

(** Default member initialisers of the class. *)
Definition init : t := mk 0 0 0.

Definition prepare (sampleRate smoothingMs : R) (s : t) : t :=
  if Rlt_dec 0 sampleRate then
    if Rlt_dec 0 smoothingMs then
      let tau := smoothingMs / 1000 in
      mk (current_ s) (target_ s) (exp (-1 / (tau * sampleRate)))
    else mk (current_ s) (target_ s) 0
  else mk (current_ s) (target_ s) 0.

Definition setTarget (target : R) (s : t) : t :=
  mk (current_ s) target (coeff_ s).

(** Returns the value handed back to the caller and the updated object. *)
Definition next (s : t) : R * t :=
  let current := coeff_ s * current_ s + (1 - coeff_ s) * target_ s in
  (current, mk current (target_ s) (coeff_ s)).

Definition snap (value : R) (s : t) : t :=
  mk value value (coeff_ s).

Definition getCurrentValue (s : t) : R := current_ s.
Definition getTargetValue (s : t) : R := target_ s.

End ParamSmoother.

(** ** std::atomic<float> as used by GainStage

    The stored value, together with a count of the [load] calls made so
    far.  The count is specification-only state: it lets a statement say
    how many times a method reads the atomic. *)

Module Atomic.

Record t : Type := mk {
  value : R;
  loads : nat
}.

Definition load (a : t) : R * t :=
  (value a, mk (value a) (S (loads a))).

Definition store (v : R) (a : t) : t :=
  mk v (loads a).

End Atomic.

(** ** GainStage (gain_stage.cpp, gain_stage.h) *)

Module GainStage.

Definition kMinDb : R := -60.
Definition kMaxDb : R := 24.
Definition kMinLin : R := 1 / 1000.   (* 1e-3f, floor to avoid denormals *)

Definition kSmoothingMs : R := 10.

Definition dbToLinear (db : R) : R := pow10 (db / 20).

Definition linearToDb (linear : R) : R :=
  if Rle_dec linear 0 then kMinDb else 20 * log10 linear.

Record t : Type := mk {
  targetGainLinear_ : Atomic.t;
  smoother_         : ParamSmoother.t
}.

(** [GainStage::GainStage()]: the atomic is stored to 1, the smoother
    takes its default member initialisers. *)
Definition ctor : t :=
  mk (Atomic.store 1 (Atomic.mk 0 0)) ParamSmoother.init.

Definition prepare (sampleRate : R) (maxBlockSize : Z) (g : t) : t :=
  let sm := ParamSmoother.prepare sampleRate kSmoothingMs (smoother_ g) in
  let '(v, a) := Atomic.load (targetGainLinear_ g) in
  mk a (ParamSmoother.snap v sm).

(** Body of the sample loop: [buffer[i] *= smoother_.next();]. *)
Definition process_body (i : nat) (st : ParamSmoother.t * list R)
  : ParamSmoother.t * list R :=
  let '(sm, buffer) := st in
  let '(x, sm') := ParamSmoother.next sm in
  (sm', alter (fun b => b * x) i buffer).

Definition process (buffer : list R) (numSamples : Z) (g : t) : t * list R :=
  let '(target, a) := Atomic.load (targetGainLinear_ g) in
  let sm := ParamSmoother.setTarget target (smoother_ g) in
  let '(sm', buffer') := for_loop numSamples process_body (sm, buffer) in
  (mk a sm', buffer').

Definition reset (g : t) : t :=
  let '(v, a) := Atomic.load (targetGainLinear_ g) in
  mk a (ParamSmoother.snap v (smoother_ g)).

Definition setGainDb (db : R) (g : t) : t :=
  let clamped := std_clamp db kMinDb kMaxDb in
  let linear := std_max (dbToLinear clamped) kMinLin in
  mk (Atomic.store linear (targetGainLinear_ g)) (smoother_ g).

Definition setGainLinear (linear : R) (g : t) : t :=
  let clamped := std_max linear kMinLin in
  mk (Atomic.store clamped (targetGainLinear_ g)) (smoother_ g).

Definition getGainDb (g : t) : R * t :=
  let '(v, a) := Atomic.load (targetGainLinear_ g) in
  (linearToDb v, mk a (smoother_ g)).

Definition getGainLinear (g : t) : R * t :=
  let '(v, a) := Atomic.load (targetGainLinear_ g) in
  (v, mk a (smoother_ g)).

End GainStage.

(** ** ParamId (param_id.h)

    [enum class ParamId : uint32_t].  A value of the enumeration type is
    its underlying 32-bit unsigned integer; the enumerators are the named
    constants below, and [kCount] follows [ReverbWet_Norm]. *)

Module ParamId.

Definition t : Type := Z.

Definition BloomBasePre_dB  : t := 0%Z.
Definition BloomBasePost_dB : t := 1%Z.
Definition BloomPreDepth    : t := 2%Z.
Definition BloomPostDepth   : t := 3%Z.
Definition EnvAttackMs      : t := 4%Z.
Definition EnvReleaseMs     : t := 5%Z.
Definition EqBand1Freq      : t := 10%Z.
Definition EqBand1GainDb    : t := 11%Z.
Definition EqBand1Q         : t := 12%Z.
Definition EqBand2Freq      : t := 13%Z.
Definition EqBand2GainDb    : t := 14%Z.
Definition EqBand2Q         : t := 15%Z.
Definition EqBand3Freq      : t := 16%Z.
Definition EqBand3GainDb    : t := 17%Z.
Definition EqBand3Q         : t := 18%Z.
Definition MasterGain_dB    : t := 30%Z.
Definition ReverbRoomSize   : t := 40%Z.
Definition ReverbDamping    : t := 41%Z.
Definition ReverbWet_Norm   : t := 42%Z.
Definition kCount           : t := 43%Z.

(** The enumerators that name a parameter, in declaration order. *)
Definition enumerators : list t :=
  [ BloomBasePre_dB; BloomBasePost_dB; BloomPreDepth; BloomPostDepth;
    EnvAttackMs; EnvReleaseMs;
    EqBand1Freq; EqBand1GainDb; EqBand1Q;
    EqBand2Freq; EqBand2GainDb; EqBand2Q;
    EqBand3Freq; EqBand3GainDb; EqBand3Q;
    MasterGain_dB;
    ReverbRoomSize; ReverbDamping; ReverbWet_Norm ].

(** A value the 32-bit underlying type can hold. *)
Definition representable (id : t) : Prop := (0 <= id < 2 ^ 32)%Z.

(** [static_cast<int>(id)]: the 32-bit pattern read as two's complement. *)
Definition static_cast_int (id : t) : Z :=
  let u := (id mod 2 ^ 32)%Z in
  if (u <? 2 ^ 31)%Z then u else (u - 2 ^ 32)%Z.

End ParamId.

(** ** ParamRegistry (param_registry.cpp, param_registry.h) *)

Module ParamRegistry.

Definition kNumParams : Z := ParamId.static_cast_int ParamId.kCount.

Record ParamInfo : Type := mkInfo {
  defaultValue : R;
  minValue     : R;
  maxValue     : R
}.

#[global] Instance ParamInfo_inhabited : Inhabited ParamInfo :=
  populate (mkInfo 0 0 0).

Definition idx (id : ParamId.t) : nat := Z.to_nat (ParamId.static_cast_int id).

(** The static metadata table, built as the initialising lambda builds
    it: every slot gets the permissive default, then the named slots are
    overwritten one by one. *)
Definition kParamInfo : list ParamInfo :=
  let info := replicate (Z.to_nat kNumParams) (mkInfo 0 (-1e9) 1e9) in
  (* Bloom *)
  let info := <[idx ParamId.BloomBasePre_dB  := mkInfo 0 (-24) 24]> info in
  let info := <[idx ParamId.BloomBasePost_dB := mkInfo 0 (-24) 24]> info in
  let info := <[idx ParamId.BloomPreDepth    := mkInfo 6 0 24]> info in
  let info := <[idx ParamId.BloomPostDepth   := mkInfo 3 0 24]> info in
  let info := <[idx ParamId.EnvAttackMs      := mkInfo 5 (1 / 10) 500]> info in
  let info := <[idx ParamId.EnvReleaseMs     := mkInfo 100 1 5000]> info in
  (* Post-EQ *)
  let info := <[idx ParamId.EqBand1Freq      := mkInfo 100 20 20000]> info in
  let info := <[idx ParamId.EqBand1GainDb    := mkInfo 0 (-24) 24]> info in
  let info := <[idx ParamId.EqBand1Q         := mkInfo 1 (1 / 10) 10]> info in
  let info := <[idx ParamId.EqBand2Freq      := mkInfo 1000 20 20000]> info in
  let info := <[idx ParamId.EqBand2GainDb    := mkInfo 0 (-24) 24]> info in
  let info := <[idx ParamId.EqBand2Q         := mkInfo 1 (1 / 10) 10]> info in
  let info := <[idx ParamId.EqBand3Freq      := mkInfo 8000 20 20000]> info in
  let info := <[idx ParamId.EqBand3GainDb    := mkInfo 0 (-24) 24]> info in
  let info := <[idx ParamId.EqBand3Q         := mkInfo 1 (1 / 10) 10]> info in
  (* Master *)
  let info := <[idx ParamId.MasterGain_dB    := mkInfo 0 (-60) 24]> info in
  (* Reverb *)
  let info := <[idx ParamId.ReverbRoomSize   := mkInfo (1 / 2) 0 1]> info in
  let info := <[idx ParamId.ReverbDamping    := mkInfo (1 / 2) 0 1]> info in
  let info := <[idx ParamId.ReverbWet_Norm   := mkInfo 0 0 1]> info in
  info.

(** The object: [std::array<std::atomic<float>, kNumParams> values_]. *)
Record t : Type := mk {
  values_ : list R
}.

Definition set (id : ParamId.t) (value : R) (r : t) : t :=
  let i := ParamId.static_cast_int id in
  if ((i <? 0) || (i >=? kNumParams))%Z then r
  else
    let info := kParamInfo !!! Z.to_nat i in
    let clamped := std_clamp value (minValue info) (maxValue info) in
    mk (<[Z.to_nat i := clamped]> (values_ r)).

Definition get (id : ParamId.t) (r : t) : R :=
  let i := ParamId.static_cast_int id in
  if ((i <? 0) || (i >=? kNumParams))%Z then 0
  else values_ r !!! Z.to_nat i.

Definition resetToDefaults (r : t) : t :=
  for_loop kNumParams
    (fun i r => mk (<[i := defaultValue (kParamInfo !!! i)]> (values_ r))) r.

(** [ParamRegistry::ParamRegistry()]: the array exists with [kNumParams]
    slots and is then filled by [resetToDefaults]. *)
Definition ctor : t :=
  resetToDefaults (mk (replicate (Z.to_nat kNumParams) 0)).

End ParamRegistry.

(** ** ProcessorStage and PipelineController (processor_stage.h, pipeline.h)

    The two abstract interfaces.  A [Ptr] is the address of an object
    implementing the interface; [World] is the state of every object that
    can be reached through such addresses.  A virtual call takes the
    world and returns the world it leaves behind, together with the
    buffer when the buffer is passed as mutable. *)

Class ProcessorStage (Ptr World : Type) : Type := {
  stage_prepare : Ptr -> R -> Z -> World -> World;
  stage_process : Ptr -> list R -> Z -> World -> World * list R;
  stage_reset   : Ptr -> World -> World
}.

Class PipelineController (Ptr World : Type) : Type := {
  ctrl_preProcess    : Ptr -> list R -> Z -> World -> World;
  ctrl_betweenStages : Ptr -> Z -> list R -> Z -> World -> World * list R
}.

(** ** Pipeline (pipeline.cpp, pipeline.h) *)

Module Pipeline.

Definition kMaxStages : Z := 16.
Definition kMaxControllers : Z := 4.

Section Defs.

Context {StagePtr CtrlPtr World : Type}.
Context `{!ProcessorStage StagePtr World, !PipelineController CtrlPtr World}.

(** [None] in a slot is [nullptr]. *)
Record t : Type := mk {
  stages_         : list (option StagePtr);
  controllers_    : list (option CtrlPtr);
  numStages_      : Z;
  numControllers_ : Z;
  sampleRate_     : R;
  maxBlockSize_   : Z
}.

Definition ctor : t :=
  mk (replicate (Z.to_nat kMaxStages) None)
     (replicate (Z.to_nat kMaxControllers) None) 0 0 0 0.

(** A failed [assert] aborts the program: [None]. *)
Definition addStage (stage : option StagePtr) (p : t) : option t :=
  if (numStages_ p <? kMaxStages)%Z then
    match stage with
    | None => None
    | Some _ =>
        Some (mk (<[Z.to_nat (numStages_ p) := stage]> (stages_ p))
                 (controllers_ p) (numStages_ p + 1) (numControllers_ p)
                 (sampleRate_ p) (maxBlockSize_ p))
    end
  else None.

Definition addController (controller : option CtrlPtr) (p : t) : option t :=
  if (numControllers_ p <? kMaxControllers)%Z then
    match controller with
    | None => None
    | Some _ =>
        Some (mk (stages_ p)
                 (<[Z.to_nat (numControllers_ p) := controller]> (controllers_ p))
                 (numStages_ p) (numControllers_ p + 1)
                 (sampleRate_ p) (maxBlockSize_ p))
    end
  else None.

(** [stages_[i]->] and [controllers_[c]->]: reading outside the array or
    calling through [nullptr] has no defined behaviour, which is [None]. *)
Definition stage_at (p : t) (i : nat) : option StagePtr :=
  mjoin (stages_ p !! i).

Definition controller_at (p : t) (c : nat) : option CtrlPtr :=
  mjoin (controllers_ p !! c).

Definition prepare (sampleRate : R) (maxBlockSize : Z) (p : t) (w : World)
  : option (t * World) :=
  let p' := mk (stages_ p) (controllers_ p) (numStages_ p) (numControllers_ p)
               sampleRate maxBlockSize in
  w' ← for_loop (numStages_ p')
         (fun i st =>
            w ← st;
            stage ← stage_at p' i;
            Some (stage_prepare stage sampleRate maxBlockSize w))
         (Some w);
  Some (p', w').

Definition process (buffer : list R) (numSamples : Z) (p : t) (w : World)
  : option (World * list R) :=
  (* 1. Notify controllers before any stages run *)
  let st :=
    for_loop (numControllers_ p)
      (fun c st =>
         '(w, buffer) ← st;
         ctrl ← controller_at p c;
         Some (ctrl_preProcess ctrl buffer numSamples w, buffer))
      (Some (w, buffer)) in
  (* 2. Process stages in order, notifying controllers between each *)
  for_loop (numStages_ p)
    (fun s st =>
       '(w, buffer) ← st;
       stage ← stage_at p s;
       for_loop (numControllers_ p)
         (fun c st =>
            '(w, buffer) ← st;
            ctrl ← controller_at p c;
            Some (ctrl_betweenStages ctrl (Z.of_nat s) buffer numSamples w))
         (Some (stage_process stage buffer numSamples w)))
    st.

Definition reset (p : t) (w : World) : option World :=
  for_loop (numStages_ p)
    (fun i st =>
       w ← st;
       stage ← stage_at p i;
       Some (stage_reset stage w))
    (Some w).

Definition numStages (p : t) : Z := numStages_ p.
Definition numControllers (p : t) : Z := numControllers_ p.

(** *** The per-block protocol as a list of calls

    One entry per virtual call, naming the registration slot of the
    object called. *)
Inductive Call : Type :=
  | CallPreProcess (c : nat)
  | CallProcess (s : nat)
  | CallBetweenStages (c : nat) (s : nat).

(** Performing one call of the protocol. *)
Definition exec (p : t) (numSamples : Z) (call : Call) (st : World * list R)
  : option (World * list R) :=
  let '(w, buffer) := st in
  match call with
  | CallPreProcess c =>
      ctrl ← controller_at p c;
      Some (ctrl_preProcess ctrl buffer numSamples w, buffer)
  | CallProcess s =>
      stage ← stage_at p s;
      Some (stage_process stage buffer numSamples w)
  | CallBetweenStages c s =>
      ctrl ← controller_at p c;
      Some (ctrl_betweenStages ctrl (Z.of_nat s) buffer numSamples w)
  end.

Definition run (p : t) (numSamples : Z) (calls : list Call)
  (st : option (World * list R)) : option (World * list R) :=
  foldl (fun st call => st ≫= exec p numSamples call) st calls.

(** What the registration methods maintain. *)
Definition wf (p : t) : Prop :=
  (0 <= numStages_ p <= kMaxStages)%Z /\
  (0 <= numControllers_ p <= kMaxControllers)%Z /\
  length (stages_ p) = Z.to_nat kMaxStages /\
  length (controllers_ p) = Z.to_nat kMaxControllers /\
  (forall s, (s < Z.to_nat (numStages_ p))%nat -> is_Some (stage_at p s)) /\
  (forall c, (c < Z.to_nat (numControllers_ p))%nat -> is_Some (controller_at p c)).

End Defs.

Arguments t : clear implicits.

(** Stage by stage: the stage, then every controller's hook for it. *)
Definition stage_calls (C s : nat) : list Call :=
  CallProcess s :: map (fun c => CallBetweenStages c s) (seq 0 C).

(** The whole block, for [S] stages and [C] controllers. *)
Definition schedule (S C : nat) : list Call :=
  map CallPreProcess (seq 0 C) ++ flat_map (stage_calls C) (seq 0 S).

Definition is_preProcess_of (c : nat) (call : Call) : bool :=
  match call with CallPreProcess c' => Nat.eqb c c' | _ => false end.

Definition is_process_of (s : nat) (call : Call) : bool :=
  match call with CallProcess s' => Nat.eqb s s' | _ => false end.

Definition is_betweenStages_of (c : nat) (call : Call) : bool :=
  match call with CallBetweenStages c' _ => Nat.eqb c c' | _ => false end.

(** How many calls of a list satisfy a test. *)
Definition count (f : Call -> bool) (calls : list Call) : nat :=
  length (List.filter f calls).

End Pipeline.

(** ** NeuralAudio::NeuralModel, the inference engine consumed by NamStage

    Only its interface is known to this repository.  A [Model] value is
    the state of one model object. *)

(** Outcome of [NeuralModel::CreateFromFile]. *)
Inductive CreateResult (Model : Type) : Type :=
  | Throws
  | Null
  | Created (m : Model).

Arguments Throws {Model}.
Arguments Null {Model}.
Arguments Created {Model} m.

Class NeuralModel (Model : Type) : Type := {
  CreateFromFile : string -> CreateResult Model;
  SetMaxAudioBufferSize : Z -> Model -> Model;
  (** [Process(input, output, n)] on the [n] input samples: the model
      left behind and the [n] samples written to [output]. *)
  Process : Model -> list R -> Model * list R;
  GetRecommendedInputDBAdjustment  : Model -> R;
  GetRecommendedOutputDBAdjustment : Model -> R;
  Process_length : forall m input, length (Process m input).2 = length input
}.

(** [std::memcpy(dst, src, n * sizeof(float))] on two float arrays. *)
Definition memcpy (dst src : list R) (n : nat) : list R :=
  take n src ++ drop n dst.

(** ** NamStage (nam_stage.cpp, nam_stage.h) *)

Module NamStage.

Section Defs.

Context {Model : Type} `{!NeuralModel Model}.

(** [None] in a [std::unique_ptr] field is the empty pointer. *)
Record t : Type := mk {
  model_            : option Model;
  currentModelPath_ : string;
  pendingModel_     : option Model;
  pendingModelPath_ : string;
  modelPending_     : bool;
  outputBuffer_     : list R;
  maxBlockSize_     : Z;
  sampleRate_       : R;
  inputGainLinear_  : R;
  outputGainLinear_ : R
}.

Definition ctor : t :=
  mk None EmptyString None EmptyString false [] 0 0 1 1.

(** The library-wide default buffer size set through
    [SetDefaultMaxAudioBufferSize] is not part of this object. *)
Definition prepare (sampleRate : R) (maxBlockSize : Z) (st : t) : t :=
  mk (match model_ st with
      | Some m => Some (SetMaxAudioBufferSize maxBlockSize m)
      | None => None
      end)
     (currentModelPath_ st) (pendingModel_ st) (pendingModelPath_ st)
     (modelPending_ st)
     (replicate (Z.to_nat maxBlockSize) 0)
     maxBlockSize sampleRate
     (inputGainLinear_ st) (outputGainLinear_ st).

Definition updateCalibration (st : t) : t :=
  match model_ st with
  | None =>
      mk (model_ st) (currentModelPath_ st) (pendingModel_ st)
         (pendingModelPath_ st) (modelPending_ st) (outputBuffer_ st)
         (maxBlockSize_ st) (sampleRate_ st) 1 1
  | Some m =>
      let inDb  := GetRecommendedInputDBAdjustment m in
      let outDb := GetRecommendedOutputDBAdjustment m in
      mk (model_ st) (currentModelPath_ st) (pendingModel_ st)
         (pendingModelPath_ st) (modelPending_ st) (outputBuffer_ st)
         (maxBlockSize_ st) (sampleRate_ st)
         (pow10 (inDb / 20)) (pow10 (outDb / 20))
  end.

(** A moved-from [unique_ptr] is empty; the moved-from path string is
    taken to be empty as well. *)
Definition applyPendingModel (st : t) : t :=
  updateCalibration
    (mk (pendingModel_ st) (pendingModelPath_ st) None EmptyString false
        (outputBuffer_ st) (maxBlockSize_ st) (sampleRate_ st)
        (inputGainLinear_ st) (outputGainLinear_ st)).

Definition process (buffer : list R) (numSamples : Z) (st : t) : t * list R :=
  (* Swap in a pending model if one has been set by the control thread. *)
  let st := if modelPending_ st then applyPendingModel st else st in
  match model_ st with
  | None => (st, buffer)   (* No model loaded -- pass through unmodified. *)
  | Some m =>
      (* Apply input calibration gain in-place before inference. *)
      let buffer :=
        if Req_dec_T (inputGainLinear_ st) 1 then buffer
        else for_loop numSamples
               (fun i b => alter (fun x => x * inputGainLinear_ st) i b)
               buffer in
      (* Run inference. NeuralAudio writes to outputBuffer_. *)
      let '(m', out) := Process m (take (Z.to_nat numSamples) buffer) in
      let outputBuffer := memcpy (outputBuffer_ st) out (Z.to_nat numSamples) in
      (* Copy result back and apply output calibration. *)
      let buffer :=
        if Req_dec_T (outputGainLinear_ st) 1 then
          memcpy buffer outputBuffer (Z.to_nat numSamples)
        else for_loop numSamples
               (fun i b => <[i := (outputBuffer !!! i) * outputGainLinear_ st]> b)
               buffer in
      (mk (Some m') (currentModelPath_ st) (pendingModel_ st)
          (pendingModelPath_ st) (modelPending_ st) outputBuffer
          (maxBlockSize_ st) (sampleRate_ st)
          (inputGainLinear_ st) (outputGainLinear_ st),
       buffer)
  end.

Definition reset (st : t) : t := st.

Definition loadModel (path : string) (st : t) : bool * t :=
  match CreateFromFile path with
  | Throws => (false, st)
  | Null => (false, st)
  | Created raw =>
      let newModel :=
        if (0 <? maxBlockSize_ st)%Z
        then SetMaxAudioBufferSize (maxBlockSize_ st) raw
        else raw in
      (* Stage the new model for swap at the top of the next process(). *)
      (true,
       mk (model_ st) (currentModelPath_ st) (Some newModel) path true
          (outputBuffer_ st) (maxBlockSize_ st) (sampleRate_ st)
          (inputGainLinear_ st) (outputGainLinear_ st))
  end.

Definition unloadModel (st : t) : t :=
  mk (model_ st) (currentModelPath_ st) None EmptyString true
     (outputBuffer_ st) (maxBlockSize_ st) (sampleRate_ st)
     (inputGainLinear_ st) (outputGainLinear_ st).

Definition hasModel (st : t) : bool :=
  match model_ st with Some _ => true | None => false end.

Definition modelPath (st : t) : string := currentModelPath_ st.

End Defs.

Arguments t : clear implicits.

End NamStage.

(** ** Vocabulary of the statements *)

(** The smoother after [k] further calls of [next]. *)
Fixpoint advance (k : nat) (s : ParamSmoother.t) : ParamSmoother.t :=
  match k with
  | O => s
  | S k' => advance k' (ParamSmoother.next s).2
  end.




(** The array of a registry object has one slot per index below
    [kNumParams]. *)
Definition registry_wf (r : ParamRegistry.t) : Prop :=
  length (ParamRegistry.values_ r) = Z.to_nat ParamRegistry.kNumParams.

(** The integers strictly between [0] and [kCount] that no enumerator of
    [ParamId] takes. *)
Definition enum_gap (i : Z) : Prop :=
  (6 <= i <= 9 \/ 19 <= i <= 29 \/ 31 <= i <= 39)%Z.

(** A call that names registered slots only. *)
Definition call_ok (S C : nat) (call : Pipeline.Call) : Prop :=
  match call with
  | Pipeline.CallPreProcess c => (c < C)%nat
  | Pipeline.CallProcess s => (s < S)%nat
  | Pipeline.CallBetweenStages c s => (c < C)%nat /\ (s < S)%nat
  end.

(** *** A pipeline whose objects only record that they were called

    The world is the list of calls received so far, oldest first; an
    object is known by a number. *)
Inductive Event : Type :=
  | EvPrepare (stage : nat)
  | EvProcess (stage : nat) (numSamples : Z)
  | EvReset (stage : nat)
  | EvPreProcess (ctrl : nat) (numSamples : Z)
  | EvBetweenStages (ctrl : nat) (stageIndex : Z) (numSamples : Z).

#[global] Instance recording_stage : ProcessorStage nat (list Event) := {
  stage_prepare ptr _ _ log := log ++ [EvPrepare ptr];
  stage_process ptr buffer n log := (log ++ [EvProcess ptr n], buffer);
  stage_reset ptr log := log ++ [EvReset ptr]
}.

#[global] Instance recording_controller : PipelineController nat (list Event) := {
  ctrl_preProcess ptr _ n log := log ++ [EvPreProcess ptr n];
  ctrl_betweenStages ptr s buffer n log :=
    (log ++ [EvBetweenStages ptr s n], buffer)
}.

(** Two stages (objects 10 and 11) and one controller (object 20),
    registered in that order. *)
Definition recording_pipeline : option (Pipeline.t nat nat) :=
  p ← Pipeline.addStage (Some 10%nat) (@Pipeline.ctor nat nat);
  p ← Pipeline.addStage (Some 11%nat) p;
  Pipeline.addController (Some 20%nat) p.

(** *** A model to run NamStage on

    A memoryless model that doubles its input (the model object is its
    gain factor) and recommends no adjustment.  Two paths fail to load:
    one by a null result, one by an exception. *)
#[global] Instance doubling_model : NeuralModel R := {
  CreateFromFile path :=
    if String.eqb path "missing.nam" then Null
    else if String.eqb path "corrupt.nam" then Throws
    else Created 2;
  SetMaxAudioBufferSize _ m := m;
  Process m input := (m, (fun x => m * x) <$> input);
  GetRecommendedInputDBAdjustment _ := 0;
  GetRecommendedOutputDBAdjustment _ := 0;
  Process_length m input := length_fmap _ input
}.

(** A stage prepared for blocks of four samples on which a load has
    succeeded and no block has run yet. *)
Definition loaded_stage : NamStage.t R :=
  (NamStage.loadModel "amp.nam" (NamStage.prepare 48000 4 NamStage.ctor)).2.

(** ** Sequences of calls on one object

    An object as a client can leave it: the result of any finite
    sequence of calls of its public methods, starting from
    construction. *)

Inductive GainCall : Type :=
  | GsPrepare (sampleRate : R) (maxBlockSize : Z)
  | GsProcess (buffer : list R) (numSamples : Z)
  | GsReset
  | GsSetGainDb (db : R)
  | GsSetGainLinear (linear : R)
  | GsGetGainDb
  | GsGetGainLinear.

Definition gain_call (g : GainStage.t) (call : GainCall) : GainStage.t :=
  match call with
  | GsPrepare sampleRate maxBlockSize => GainStage.prepare sampleRate maxBlockSize g
  | GsProcess buffer numSamples => (GainStage.process buffer numSamples g).1
  | GsReset => GainStage.reset g
  | GsSetGainDb db => GainStage.setGainDb db g
  | GsSetGainLinear linear => GainStage.setGainLinear linear g
  | GsGetGainDb => (GainStage.getGainDb g).2
  | GsGetGainLinear => (GainStage.getGainLinear g).2
  end.

Definition gain_after (calls : list GainCall) : GainStage.t :=
  foldl gain_call GainStage.ctor calls.

(** What every sequence of calls maintains on a gain stage. *)
Definition gain_inv (g : GainStage.t) : Prop :=
  GainStage.kMinLin <= Atomic.value (GainStage.targetGainLinear_ g) /\
  0 <= ParamSmoother.coeff_ (GainStage.smoother_ g) < 1 /\
  0 <= ParamSmoother.current_ (GainStage.smoother_ g) /\
  0 <= ParamSmoother.target_ (GainStage.smoother_ g).

(** Consecutive blocks through one stage, each processed whole: the
    stage left behind and the blocks that came out. *)
Fixpoint gain_blocks (g : GainStage.t) (blocks : list (list R))
  : GainStage.t * list (list R) :=
  match blocks with
  | [] => (g, [])
  | b :: rest =>
      let r := GainStage.process b (Z.of_nat (length b)) g in
      let rs := gain_blocks r.1 rest in
      (rs.1, r.2 :: rs.2)
  end.

Inductive RegistryCall : Type :=
  | RgSet (id : ParamId.t) (value : R)
  | RgResetToDefaults.

Definition registry_call (r : ParamRegistry.t) (call : RegistryCall)
  : ParamRegistry.t :=
  match call with
  | RgSet id value => ParamRegistry.set id value r
  | RgResetToDefaults => ParamRegistry.resetToDefaults r
  end.

Definition registry_after (calls : list RegistryCall) : ParamRegistry.t :=
  foldl registry_call ParamRegistry.ctor calls.

(** Every slot holds a value within the range of its table row. *)
Definition registry_in_range (r : ParamRegistry.t) : Prop :=
  forall j, (j < Z.to_nat ParamRegistry.kNumParams)%nat ->
    ParamRegistry.minValue (ParamRegistry.kParamInfo !!! j)
    <= ParamRegistry.values_ r !!! j
    <= ParamRegistry.maxValue (ParamRegistry.kParamInfo !!! j).

(** *** Assembling a pipeline *)

(** [addStage] for each stage of a list in turn, [addController]
    likewise: the pipeline left behind, or [None] as soon as an
    assertion trips. *)
Definition add_stages {StagePtr CtrlPtr : Type} (stages : list StagePtr)
  (p : Pipeline.t StagePtr CtrlPtr) : option (Pipeline.t StagePtr CtrlPtr) :=
  foldl (fun p stage => p ≫= Pipeline.addStage (Some stage)) (Some p) stages.

Definition add_controllers {StagePtr CtrlPtr : Type} (controllers : list CtrlPtr)
  (p : Pipeline.t StagePtr CtrlPtr) : option (Pipeline.t StagePtr CtrlPtr) :=
  foldl (fun p ctrl => p ≫= Pipeline.addController (Some ctrl)) (Some p) controllers.

(** The stages, and the controllers, in the slots below the counters. *)
Definition registered_stages {StagePtr CtrlPtr : Type}
  (p : Pipeline.t StagePtr CtrlPtr) : list StagePtr :=
  omap (Pipeline.stage_at p) (seq 0 (Z.to_nat (Pipeline.numStages_ p))).

Definition registered_controllers {StagePtr CtrlPtr : Type}
  (p : Pipeline.t StagePtr CtrlPtr) : list CtrlPtr :=
  omap (Pipeline.controller_at p) (seq 0 (Z.to_nat (Pipeline.numControllers_ p))).

(** *** Calls on a NamStage *)

Inductive NamCall : Type :=
  | NmPrepare (sampleRate : R) (maxBlockSize : Z)
  | NmProcess (buffer : list R) (numSamples : Z)
  | NmReset
  | NmLoadModel (path : string)
  | NmUnloadModel.

Definition nam_call {Model : Type} `{!NeuralModel Model}
  (st : NamStage.t Model) (call : NamCall) : NamStage.t Model :=
  match call with
  | NmPrepare sampleRate maxBlockSize => NamStage.prepare sampleRate maxBlockSize st
  | NmProcess buffer numSamples => (NamStage.process buffer numSamples st).1
  | NmReset => NamStage.reset st
  | NmLoadModel path => (NamStage.loadModel path st).2
  | NmUnloadModel => NamStage.unloadModel st
  end.

Definition nam_after {Model : Type} `{!NeuralModel Model} (calls : list NamCall)
  : NamStage.t Model :=
  foldl nam_call NamStage.ctor calls.

(** No [loadModel] of the sequence gets a model from [CreateFromFile]. *)
Definition no_load_succeeds {Model : Type} `{!NeuralModel Model}
  (calls : list NamCall) : Prop :=
  forall path, In (NmLoadModel path) calls ->
    CreateFromFile path = Throws \/ CreateFromFile path = Null.


(** *** Pipelines over concrete stages *)

(** No controller object exists: the type of their addresses is empty. *)
#[global] Instance no_controller (World : Type)
  : PipelineController Empty_set World := {
  ctrl_preProcess ctrl _ _ _ := match ctrl return World with end;
  ctrl_betweenStages ctrl _ _ _ _ := match ctrl return World * list R with end
}.

#[global] Instance GainStage_inhabited : Inhabited GainStage.t :=
  populate GainStage.ctor.

(** Gain stage objects kept in a store, the address of one being its
    position.  A call through an address outside the store has no
    defined behaviour and is left without effect. *)
#[global] Instance gain_store : ProcessorStage nat (list GainStage.t) := {
  stage_prepare ptr sampleRate maxBlockSize store :=
    alter (GainStage.prepare sampleRate maxBlockSize) ptr store;
  stage_process ptr buffer numSamples store :=
    match store !! ptr with
    | Some g =>
        let r := GainStage.process buffer numSamples g in
        (<[ptr := r.1]> store, r.2)
    | None => (store, buffer)
    end;
  stage_reset ptr store := alter GainStage.reset ptr store
}.

(** The set-up of the repository's pipeline tests, for any number of
    gain stages: each stage is constructed and set to its gain, all are
    added to a fresh pipeline in order, and the pipeline is prepared. *)
Definition gain_chain_setup (gains : list R) (sampleRate : R) (maxBlockSize : Z)
  : option (Pipeline.t nat Empty_set * list GainStage.t) :=
  p ← add_stages (seq 0 (length gains)) (@Pipeline.ctor nat Empty_set);
  Pipeline.prepare sampleRate maxBlockSize p
    ((fun g => GainStage.setGainDb g GainStage.ctor) <$> gains).

(** Consecutive blocks through a pipeline, each processed whole. *)
Fixpoint pipeline_blocks {StagePtr CtrlPtr World : Type}
  `{!ProcessorStage StagePtr World, !PipelineController CtrlPtr World}
  (p : Pipeline.t StagePtr CtrlPtr) (w : World) (blocks : list (list R))
  : option (World * list (list R)) :=
  match blocks with
  | [] => Some (w, [])
  | b :: rest =>
      '(w1, out) ← Pipeline.process b (Z.of_nat (length b)) p w;
      '(w2, outs) ← pipeline_blocks p w1 rest;
      Some (w2, out :: outs)
  end.

(** The linear gain [setGainDb(db)] stores. *)
Definition linear_of_db (db : R) : R :=
  (GainStage.getGainLinear (GainStage.setGainDb db GainStage.ctor)).1.

(** Every stage of the store has its smoother sitting on its target. *)
Definition settled (g : GainStage.t) : Prop :=
  ParamSmoother.current_ (GainStage.smoother_ g)
  = Atomic.value (GainStage.targetGainLinear_ g).


(** ** The LV2 wrapper of the master gain

    [HexCasterLV2] with its three ports (audio in, audio out, master
    gain in dB): the object, [instantiate], [connect_port] and [run].  The arrays the
    host passes to [connect_port] are the host's: its memory is a list of
    float arrays and a port field holds the position of one, or [None]
    for [nullptr].  The pipeline holds the address of the member
    [masterGain], position 0 of the one-object store [[masterGain]]. *)
Module HexCasterLV2.


Definition Memory : Type := list (list R).

Record t : Type := mk {
  audioIn       : option nat;
  audioOut      : option nat;
  masterGainCtl : option nat;
  params        : ParamRegistry.t;
  masterGain    : GainStage.t;
  pipeline      : Pipeline.t nat Empty_set
}.

(** [&masterGain] *)
Definition masterGain_addr : nat := 0.

(** [HexCasterLV2(sampleRate)].  The member initialisers run first; a
    failed assertion in [addStage] or a null stage in [prepare] ends the
    program. *)
Definition ctor (sampleRate : R) : option t :=
  let params := ParamRegistry.ctor in
  let masterGain := GainStage.ctor in
  let pipeline := @Pipeline.ctor nat Empty_set in
  let masterGain :=
    GainStage.setGainDb (ParamRegistry.get ParamId.MasterGain_dB params) masterGain in
  pipeline ← Pipeline.addStage (Some masterGain_addr) pipeline;
  '(pipeline, store) ← Pipeline.prepare sampleRate 4096 pipeline [masterGain];
  Some (mk None None None params (store !!! masterGain_addr) pipeline).



(** [static_cast<int>(sampleCount)] of a [uint32_t]. *)
Definition static_cast_int (sampleCount : Z) : Z :=
  if (sampleCount <? 2 ^ 31)%Z then sampleCount else (sampleCount - 2 ^ 32)%Z.

(** [run(instance, sampleCount)] on the host's memory.  Reading through
    a port that points at no array, copying more samples than an array
    holds and a [memcpy] of an array onto itself have no defined
    behaviour: [None]. *)
Definition run (sampleCount : Z) (self : t) (mem : Memory) : option (t * Memory) :=
  match audioIn self, audioOut self with
  | Some a_in, Some a_out =>
      (* Read master gain control port and apply to gain stage each block. *)
      g ← match masterGainCtl self with
          | Some a_ctl =>
              ctl ← mem !! a_ctl;
              db ← head ctl;
              Some (GainStage.setGainDb db (masterGain self))
          | None => Some (masterGain self)
          end;
      (* Copy input -> output, then process in-place. *)
      src ← mem !! a_in;
      dst ← mem !! a_out;
      let n := Z.to_nat sampleCount in
      if bool_decide (a_in ≠ a_out) && (n <=? length src)%nat && (n <=? length dst)%nat
      then
        '(store, out) ← Pipeline.process (memcpy dst src n)
                          (static_cast_int sampleCount) (pipeline self) [g];
        Some (mk (audioIn self) (audioOut self) (masterGainCtl self)
                 (params self) (store !!! masterGain_addr) (pipeline self),
              <[a_out := out]> mem)
      else None
  | _, _ => Some (self, mem)
  end.

End HexCasterLV2.



(** ** The signal chain of the LV2 wrapper with model loading

    The DSP members of the later [HexCasterLV2] and what its constructor
    does with them: the master gain set from the registry, then
    [&masterGain] and [&nam] added to the pipeline in this order and the
    pipeline prepared for blocks of 4096.  (The constructor's URID
    look-up and debug log touch none of these members; the loader
    thread and the state interface are outside this model.) *)
Module PluginChain.

(** [&masterGain] and [&nam]. *)
Inductive StageRef : Type := MasterGainRef | NamRef.

Section Defs.

Context {Model : Type} `{!NeuralModel Model}.

Record Stages : Type := mkStages {
  masterGain : GainStage.t;
  nam        : NamStage.t Model
}.

(** The virtual calls through the two addresses. *)
#[global] Instance dispatch : ProcessorStage StageRef Stages := {
  stage_prepare ref sampleRate maxBlockSize w :=
    match ref with
    | MasterGainRef =>
        mkStages (GainStage.prepare sampleRate maxBlockSize (masterGain w)) (nam w)
    | NamRef =>
        mkStages (masterGain w) (NamStage.prepare sampleRate maxBlockSize (nam w))
    end;
  stage_process ref buffer numSamples w :=
    match ref with
    | MasterGainRef =>
        let r := GainStage.process buffer numSamples (masterGain w) in
        (mkStages r.1 (nam w), r.2)
    | NamRef =>
        let r := NamStage.process buffer numSamples (nam w) in
        (mkStages (masterGain w) r.1, r.2)
    end;
  stage_reset ref w :=
    match ref with
    | MasterGainRef => mkStages (GainStage.reset (masterGain w)) (nam w)
    | NamRef => mkStages (masterGain w) (NamStage.reset (nam w))
    end
}.

Definition ctor (sampleRate : R)
  : option (Pipeline.t StageRef Empty_set * Stages) :=
  let params := ParamRegistry.ctor in
  let masterGain := GainStage.ctor in
  let nam := NamStage.ctor in
  let pipeline := @Pipeline.ctor StageRef Empty_set in
  let masterGain :=
    GainStage.setGainDb (ParamRegistry.get ParamId.MasterGain_dB params) masterGain in
  pipeline ← Pipeline.addStage (Some MasterGainRef) pipeline;
  pipeline ← Pipeline.addStage (Some NamRef) pipeline;
  Pipeline.prepare sampleRate 4096 pipeline (mkStages masterGain nam).

End Defs.

Arguments Stages : clear implicits.

End PluginChain.

(** ** NamStage statement by statement (nam_stage.cpp)

    [loadModel] and [unloadModel] run on a control or loader thread
    while [process] runs on the audio thread, and no lock is taken: the
    threads can take turns between any two statements.  The member
    writes of the three functions are listed one statement each, in
    source order; the steps before the first write of [loadModel]
    (building the model, telling it the block size) touch no member. *)
Module NamStores.

Section Defs.

Context {Model : Type} `{!NeuralModel Model}.

Inductive Store : Type :=
  (** [pendingModel_ = std::move(newModel);] and [pendingModel_.reset();] *)
  | SetPendingModel (newModel : option Model)
  (** [pendingModelPath_ = path;] and [pendingModelPath_.clear();] *)
  | SetPendingModelPath (path : string)
  (** [modelPending_.store(true, std::memory_order_release);] *)
  | RaisePending
  (** [model_ = std::move(pendingModel_);] *)
  | MovePendingModel
  (** [currentModelPath_ = std::move(pendingModelPath_);] *)
  | MovePendingModelPath
  (** [modelPending_.store(false, std::memory_order_release);] *)
  | LowerPending
  (** [updateCalibration();] *)
  | UpdateCalibration.

Definition exec (st : NamStage.t Model) (op : Store) : NamStage.t Model :=
  match op with
  | SetPendingModel newModel =>
      NamStage.mk (NamStage.model_ st) (NamStage.currentModelPath_ st)
        newModel (NamStage.pendingModelPath_ st) (NamStage.modelPending_ st)
        (NamStage.outputBuffer_ st) (NamStage.maxBlockSize_ st)
        (NamStage.sampleRate_ st)
        (NamStage.inputGainLinear_ st) (NamStage.outputGainLinear_ st)
  | SetPendingModelPath path =>
      NamStage.mk (NamStage.model_ st) (NamStage.currentModelPath_ st)
        (NamStage.pendingModel_ st) path (NamStage.modelPending_ st)
        (NamStage.outputBuffer_ st) (NamStage.maxBlockSize_ st)
        (NamStage.sampleRate_ st)
        (NamStage.inputGainLinear_ st) (NamStage.outputGainLinear_ st)
  | RaisePending =>
      NamStage.mk (NamStage.model_ st) (NamStage.currentModelPath_ st)
        (NamStage.pendingModel_ st) (NamStage.pendingModelPath_ st) true
        (NamStage.outputBuffer_ st) (NamStage.maxBlockSize_ st)
        (NamStage.sampleRate_ st)
        (NamStage.inputGainLinear_ st) (NamStage.outputGainLinear_ st)
  | MovePendingModel =>
      NamStage.mk (NamStage.pendingModel_ st) (NamStage.currentModelPath_ st)
        None (NamStage.pendingModelPath_ st) (NamStage.modelPending_ st)
        (NamStage.outputBuffer_ st) (NamStage.maxBlockSize_ st)
        (NamStage.sampleRate_ st)
        (NamStage.inputGainLinear_ st) (NamStage.outputGainLinear_ st)
  | MovePendingModelPath =>
      NamStage.mk (NamStage.model_ st) (NamStage.pendingModelPath_ st)
        (NamStage.pendingModel_ st) EmptyString (NamStage.modelPending_ st)
        (NamStage.outputBuffer_ st) (NamStage.maxBlockSize_ st)
        (NamStage.sampleRate_ st)
        (NamStage.inputGainLinear_ st) (NamStage.outputGainLinear_ st)
  | LowerPending =>
      NamStage.mk (NamStage.model_ st) (NamStage.currentModelPath_ st)
        (NamStage.pendingModel_ st) (NamStage.pendingModelPath_ st) false
        (NamStage.outputBuffer_ st) (NamStage.maxBlockSize_ st)
        (NamStage.sampleRate_ st)
        (NamStage.inputGainLinear_ st) (NamStage.outputGainLinear_ st)
  | UpdateCalibration => NamStage.updateCalibration st
  end.

(** A schedule: the statements in the order they take effect. *)
Definition run (schedule : list Store) (st : NamStage.t Model) : NamStage.t Model :=
  foldl exec st schedule.

(** The member writes of [loadModel(path)] called on [st]: none when
    the model cannot be built. *)
Definition loadModel (path : string) (st : NamStage.t Model) : list Store :=
  match CreateFromFile path with
  | Throws => []
  | Null => []
  | Created raw =>
      let newModel :=
        if (0 <? NamStage.maxBlockSize_ st)%Z
        then SetMaxAudioBufferSize (NamStage.maxBlockSize_ st) raw
        else raw in
      [SetPendingModel (Some newModel); SetPendingModelPath path; RaisePending]
  end.

Definition unloadModel : list Store :=
  [SetPendingModel None; SetPendingModelPath EmptyString; RaisePending].

(** The member writes of [applyPendingModel()], which [process] enters
    once it has read the flag as raised. *)
Definition applyPendingModel : list Store :=
  [MovePendingModel; MovePendingModelPath; LowerPending; UpdateCalibration].

End Defs.

Arguments Store : clear implicits.

End NamStores.

(** The ways two threads can take turns: [merged] holds the statements
    of both, each thread's own in its program order. *)
Inductive Interleaving {A : Type} : list A -> list A -> list A -> Prop :=
  | interleaving_nil : Interleaving [] [] []
  | interleaving_left (x : A) (l1 l2 merged : list A) :
      Interleaving l1 l2 merged -> Interleaving (x :: l1) l2 (x :: merged)
  | interleaving_right (x : A) (l1 l2 merged : list A) :
      Interleaving l1 l2 merged -> Interleaving l1 (x :: l2) (x :: merged).

(** *** A model that is the name of the file it was built from

    Every file loads; the model passes its input on and recommends no
    adjustment.  Two models built from different files differ. *)
#[global] Instance named_model : NeuralModel string | 100 := {
  CreateFromFile path := Created path;
  SetMaxAudioBufferSize _ m := m;
  Process m input := (m, input);
  GetRecommendedInputDBAdjustment _ := 0;
  GetRecommendedOutputDBAdjustment _ := 0;
  Process_length _ _ := eq_refl
}.

(** * Properties *)

(** ** Loops *)

Lemma for_from_foldl {St : Type} (n i : nat) (body : nat -> St -> St) (s : St) :
  for_from n i body s = foldl (fun s j => body j s) s (seq i n).
Proof. revert i s; induction n as [|n IH]; intros i s; simpl; [|rewrite IH]; reflexivity. Qed.

(** ** Idealised float helpers *)

Lemma std_max_Rmax (a b : R) : std_max a b = Rmax a b.
Proof.
  unfold std_max, Rmax.
  destruct (Rlt_dec a b), (Rle_dec a b); lra.
Qed.

Lemma std_clamp_Rmax_Rmin (v lo hi : R) :
  lo <= hi -> std_clamp v lo hi = Rmax lo (Rmin v hi).
Proof.
  intros Hlh. unfold std_clamp, Rmax, Rmin.
  destruct (Rlt_dec v lo), (Rlt_dec hi v), (Rle_dec v hi);
    try destruct (Rle_dec lo v); try destruct (Rle_dec lo hi); lra.
Qed.

Lemma std_clamp_bounds (v lo hi : R) :
  lo <= hi -> lo <= std_clamp v lo hi <= hi.
Proof.
  intros Hlh. unfold std_clamp.
  destruct (Rlt_dec v lo), (Rlt_dec hi v); lra.
Qed.

Lemma std_clamp_id (v lo hi : R) :
  lo <= v <= hi -> std_clamp v lo hi = v.
Proof.
  intros Hv. unfold std_clamp.
  destruct (Rlt_dec v lo), (Rlt_dec hi v); lra.
Qed.

Lemma ln_10_pos : 0 < ln 10.
Proof. rewrite <- ln_1. apply ln_increasing; lra. Qed.

Lemma pow10_pos (x : R) : 0 < pow10 x.
Proof. apply exp_pos. Qed.

Lemma pow10_le (x y : R) : x <= y -> pow10 x <= pow10 y.
Proof.
  intros [Hlt | ->]; [left | right; reflexivity].
  apply Rpower_lt; lra.
Qed.

Lemma pow10_m3 : pow10 (-3) = 1 / 1000.
Proof.
  unfold pow10. replace (-3) with (- INR 3) by (simpl; lra).
  rewrite Rpower_Ropp, Rpower_pow by lra. simpl. lra.
Qed.

Lemma pow10_0 : pow10 0 = 1.
Proof. unfold pow10. apply Rpower_O. lra. Qed.

Lemma log10_pow10 (x : R) : log10 (pow10 x) = x.
Proof.
  unfold log10, pow10, Rpower. rewrite ln_exp.
  field. pose proof ln_10_pos. lra.
Qed.

(** ** ParamSmoother *)

(** C6. [prepare(sampleRate, smoothingMs)] sets the coefficient to
    [exp(-1 / ((smoothingMs/1000) * sampleRate))] when both arguments are
    strictly positive and to [0] otherwise, touching nothing else; every
    [next()] replaces [current] by [coeff*current + (1-coeff)*target] and
    returns the new [current]; with a zero coefficient one [next()]
    returns the target exactly. *)
Theorem smoother_prepare_next
  (sampleRate smoothingMs : R) (s u : ParamSmoother.t) :
  let s' := ParamSmoother.prepare sampleRate smoothingMs s in
  let u' := (ParamSmoother.next u).2 in
  (0 < sampleRate -> 0 < smoothingMs ->
     ParamSmoother.coeff_ s' = exp (-1 / ((smoothingMs / 1000) * sampleRate))) /\
  (~ (0 < sampleRate /\ 0 < smoothingMs) -> ParamSmoother.coeff_ s' = 0) /\
  ParamSmoother.current_ s' = ParamSmoother.current_ s /\
  ParamSmoother.target_ s' = ParamSmoother.target_ s /\
  ParamSmoother.current_ u' =
    ParamSmoother.coeff_ u * ParamSmoother.current_ u
    + (1 - ParamSmoother.coeff_ u) * ParamSmoother.target_ u /\
  (ParamSmoother.next u).1 = ParamSmoother.current_ u' /\
  ParamSmoother.target_ u' = ParamSmoother.target_ u /\
  ParamSmoother.coeff_ u' = ParamSmoother.coeff_ u /\
  (ParamSmoother.coeff_ u = 0 ->
     (ParamSmoother.next u).1 = ParamSmoother.target_ u).
Proof.
  unfold ParamSmoother.prepare, ParamSmoother.next; simpl.
  repeat split.
  - intros Hsr Hms.
    destruct (Rlt_dec 0 sampleRate); [|lra].
    destruct (Rlt_dec 0 smoothingMs); [|lra]. reflexivity.
  - intros Hnot.
    destruct (Rlt_dec 0 sampleRate); [|reflexivity].
    destruct (Rlt_dec 0 smoothingMs); [|reflexivity].
    exfalso; apply Hnot; split; assumption.
  - destruct (Rlt_dec 0 sampleRate), (Rlt_dec 0 smoothingMs); reflexivity.
  - destruct (Rlt_dec 0 sampleRate), (Rlt_dec 0 smoothingMs); reflexivity.
  - intros ->. lra.
Qed.

(** At 48 kHz with a 10 ms time constant the coefficient is
    [exp(-1/480)]. *)
Lemma smoother_prepare_next_witness :
  ParamSmoother.coeff_ (ParamSmoother.prepare 48000 10 ParamSmoother.init)
  = exp (-1 / ((10 / 1000) * 48000)).
Proof.
  apply (smoother_prepare_next 48000 10 ParamSmoother.init ParamSmoother.init); lra.
Defined.

Lemma advance_S (k : nat) (s : ParamSmoother.t) :
  advance (S k) s = (ParamSmoother.next (advance k s)).2.
Proof.
  revert s; induction k as [|k IH]; intros s; [reflexivity|].
  change (advance (S (S k)) s) with (advance (S k) (ParamSmoother.next s).2).
  now rewrite IH.
Qed.

Lemma next_advance (k : nat) (s : ParamSmoother.t) :
  (ParamSmoother.next (advance k s)).1 = ParamSmoother.current_ (advance (S k) s).
Proof. now rewrite advance_S. Qed.

Lemma advance_target (k : nat) (s : ParamSmoother.t) :
  ParamSmoother.target_ (advance k s) = ParamSmoother.target_ s.
Proof. revert s; induction k as [|k IH]; intros s; simpl; [|rewrite IH]; reflexivity. Qed.

Lemma advance_coeff (k : nat) (s : ParamSmoother.t) :
  ParamSmoother.coeff_ (advance k s) = ParamSmoother.coeff_ s.
Proof. revert s; induction k as [|k IH]; intros s; simpl; [|rewrite IH]; reflexivity. Qed.

(** Closed form of the exponential ramp: after [k] calls the distance to
    the target has shrunk by [coeff^k]. *)
Lemma advance_current (k : nat) (s : ParamSmoother.t) :
  ParamSmoother.current_ (advance k s) =
  ParamSmoother.target_ s
  + ParamSmoother.coeff_ s ^ k * (ParamSmoother.current_ s - ParamSmoother.target_ s).
Proof.
  revert s; induction k as [|k IH]; intros s; simpl; [lra|].
  rewrite IH; simpl. lra.
Qed.

(** ** GainStage *)

(** The sample loop of [GainStage::process], started at index [i]. *)
Lemma gain_loop (count i : nat) (sm : ParamSmoother.t) (buffer : list R) :
  let r := for_from count i GainStage.process_body (sm, buffer) in
  r.1 = advance count sm /\
  forall j, r.2 !! j =
    if (i <=? j)%nat && (j <? i + count)%nat
    then (fun b => b * (ParamSmoother.next (advance (j - i) sm)).1) <$> buffer !! j
    else buffer !! j.
Proof.
  revert i sm buffer; induction count as [|count IH]; intros i sm buffer; simpl.
  - split; [reflexivity|]. intros j.
    destruct (Nat.leb_spec i j), (Nat.ltb_spec j (i + 0)); simpl; try reflexivity; lia.
  - destruct (IH (S i) (ParamSmoother.next sm).2
                (alter (fun b => b * (ParamSmoother.next sm).1) i buffer)) as [H1 H2].
    split; [exact H1|]. intros j. rewrite H2.
    destruct (Nat.leb_spec (S i) j), (Nat.ltb_spec j (S i + count)); simpl.
    + rewrite list_lookup_alter_ne by lia.
      destruct (Nat.leb_spec i j), (Nat.ltb_spec j (i + S count)); simpl; try lia.
      replace (j - i)%nat with (S (j - S i)) by lia. reflexivity.
    + rewrite list_lookup_alter_ne by lia.
      destruct (Nat.leb_spec i j), (Nat.ltb_spec j (i + S count)); simpl; try lia.
      reflexivity.
    + destruct (Nat.leb_spec i j), (Nat.ltb_spec j (i + S count)); simpl; try lia.
      * assert (j = i) as -> by lia. rewrite list_lookup_alter_eq, Nat.sub_diag.
        reflexivity.
      * now rewrite list_lookup_alter_ne by lia.
    + lia.
Qed.

(** One block through [GainStage::process]. *)
Lemma gain_process_block (buffer : list R) (numSamples : Z) (g : GainStage.t) :
  let r := GainStage.process buffer numSamples g in
  let target := Atomic.value (GainStage.targetGainLinear_ g) in
  let sm := ParamSmoother.setTarget target (GainStage.smoother_ g) in
  GainStage.targetGainLinear_ r.1
    = Atomic.mk target (S (Atomic.loads (GainStage.targetGainLinear_ g))) /\
  GainStage.smoother_ r.1 = advance (Z.to_nat numSamples) sm /\
  forall i, r.2 !! i =
    if (i <? Z.to_nat numSamples)%nat
    then (fun b => b * (ParamSmoother.next (advance i sm)).1) <$> buffer !! i
    else buffer !! i.
Proof.
  cbv zeta. unfold GainStage.process, for_loop; simpl.
  pose proof (gain_loop (Z.to_nat numSamples) 0
                (ParamSmoother.setTarget
                   (Atomic.value (GainStage.targetGainLinear_ g))
                   (GainStage.smoother_ g)) buffer) as H.
  cbv zeta in H.
  destruct (for_from _ 0 GainStage.process_body _) as [sm' buffer'].
  simpl in *. destruct H as [-> H].
  repeat split.
  intros i. rewrite H. simpl. now rewrite Nat.sub_0_r.
Qed.

Lemma gain_loop_length (count i : nat) (sm : ParamSmoother.t) (buffer : list R) :
  length (for_from count i GainStage.process_body (sm, buffer)).2 = length buffer.
Proof.
  revert i sm buffer; induction count as [|count IH]; intros i sm buffer; simpl.
  - reflexivity.
  - rewrite IH. apply length_alter.
Qed.

Lemma gain_process_length (buffer : list R) (numSamples : Z) (g : GainStage.t) :
  length (GainStage.process buffer numSamples g).2 = length buffer.
Proof.
  unfold GainStage.process, for_loop; simpl.
  pose proof (gain_loop_length (Z.to_nat numSamples) 0
                (ParamSmoother.setTarget
                   (Atomic.value (GainStage.targetGainLinear_ g))
                   (GainStage.smoother_ g)) buffer) as H.
  destruct (for_from _ 0 GainStage.process_body _) as [sm' buffer'].
  exact H.
Qed.

Lemma setTarget_same (s : ParamSmoother.t) :
  ParamSmoother.setTarget (ParamSmoother.target_ s) s = s.
Proof. now destruct s. Qed.

Lemma advance_add (a b : nat) (s : ParamSmoother.t) :
  advance (a + b) s = advance b (advance a s).
Proof. revert s; induction a as [|a IH]; intros s; simpl; [|rewrite IH]; reflexivity. Qed.

(** Where the block boundaries fall does not matter: two consecutive
    blocks come out as the one block made of both. *)
Lemma gain_process_two_blocks (b1 b2 : list R) (g : GainStage.t) :
  let r1 := GainStage.process b1 (Z.of_nat (length b1)) g in
  let r2 := GainStage.process b2 (Z.of_nat (length b2)) r1.1 in
  r1.2 ++ r2.2
  = (GainStage.process (b1 ++ b2) (Z.of_nat (length (b1 ++ b2))) g).2.
Proof.
  intros r1 r2. apply list_eq; intros i.
  destruct (gain_process_block b1 (Z.of_nat (length b1)) g) as (Ha1 & Hs1 & H1).
  destruct (gain_process_block b2 (Z.of_nat (length b2)) r1.1) as (_ & _ & H2).
  destruct (gain_process_block (b1 ++ b2) (Z.of_nat (length (b1 ++ b2))) g)
    as (_ & _ & H12).
  pose proof (gain_process_length b1 (Z.of_nat (length b1)) g) as Hl1.
  fold r1 in Ha1, Hs1, H1, Hl1, H2. fold r2 in H2.
  rewrite H12, !Nat2Z.id, length_app. rewrite !Nat2Z.id in H1, H2, Hs1.
  destruct (Nat.lt_ge_cases i (length b1)) as [Hi | Hi].
  - rewrite lookup_app_l by lia. rewrite H1.
    destruct (Nat.ltb_spec i (length b1)); [|lia].
    destruct (Nat.ltb_spec i (length b1 + length b2)); [|lia].
    now rewrite lookup_app_l by lia.
  - rewrite lookup_app_r by lia. rewrite Hl1, H2.
    rewrite (lookup_app_r b1) by lia.
    destruct (Nat.ltb_spec (i - length b1) (length b2)),
      (Nat.ltb_spec i (length b1 + length b2)); try lia; [|reflexivity].
    rewrite Ha1, Hs1. cbn [Atomic.value].
    set (sm0 := ParamSmoother.setTarget
                  (Atomic.value (GainStage.targetGainLinear_ g))
                  (GainStage.smoother_ g)).
    assert (Hfix : ParamSmoother.setTarget
                     (Atomic.value (GainStage.targetGainLinear_ g))
                     (advance (length b1) sm0)
                   = advance (length b1) sm0).
    { pose proof (advance_target (length b1) sm0) as Ht. simpl in Ht.
      rewrite <- Ht. apply setTarget_same. }
    rewrite Hfix, <- advance_add.
    now replace (length b1 + (i - length b1))%nat with i by lia.
Qed.

(** C5. [setGainDb(db)] stores [max(10^(clamp(db,-60,24)/20), 1e-3)] in
    the atomic target and touches nothing else.  [process] loads that
    atomic exactly once, installs the loaded value as the smoother's
    target, and multiplies sample [i] of the block by the value returned
    by the [(i+1)]-th call of [next()]; samples past the block keep their
    value. *)
Theorem gain_setGainDb_process
  (db : R) (buffer : list R) (numSamples : Z) (g : GainStage.t) :
  let g1 := GainStage.setGainDb db g in
  let r := GainStage.process buffer numSamples g in
  let target := Atomic.value (GainStage.targetGainLinear_ g) in
  let sm := ParamSmoother.setTarget target (GainStage.smoother_ g) in
  Atomic.value (GainStage.targetGainLinear_ g1)
    = Rmax (Rpower 10 (Rmax (-60) (Rmin db 24) / 20)) (1 / 1000) /\
  Atomic.loads (GainStage.targetGainLinear_ g1)
    = Atomic.loads (GainStage.targetGainLinear_ g) /\
  GainStage.smoother_ g1 = GainStage.smoother_ g /\
  Atomic.loads (GainStage.targetGainLinear_ r.1)
    = S (Atomic.loads (GainStage.targetGainLinear_ g)) /\
  Atomic.value (GainStage.targetGainLinear_ r.1) = target /\
  ParamSmoother.target_ (GainStage.smoother_ r.1) = target /\
  GainStage.smoother_ r.1 = advance (Z.to_nat numSamples) sm /\
  forall i, r.2 !! i =
    if (i <? Z.to_nat numSamples)%nat
    then (fun b => b * (ParamSmoother.next (advance i sm)).1) <$> buffer !! i
    else buffer !! i.
Proof.
  cbv zeta.
  destruct (gain_process_block buffer numSamples g) as (Hatomic & Hsm & Hbuf).
  split; [|split; [reflexivity|split; [reflexivity|]]].
  - unfold GainStage.setGainDb; simpl.
    rewrite std_max_Rmax, std_clamp_Rmax_Rmin
      by (unfold GainStage.kMinDb, GainStage.kMaxDb; lra).
    reflexivity.
  - rewrite Hatomic, Hsm. simpl. repeat split.
    + now rewrite advance_target.
    + exact Hbuf.
Qed.

(** C9. For [db] in [[-60, 24]], [getGainDb()] after [setGainDb(db)]
    returns [db]: the clamp is the identity there, [10^(db/20)] is at
    least [1e-3] so the floor leaves it alone, and
    [20*log10(10^(db/20)) = db]. *)
Theorem gain_db_roundtrip (db : R) (g : GainStage.t) :
  -60 <= db <= 24 ->
  (GainStage.getGainDb (GainStage.setGainDb db g)).1 = db.
Proof.
  intros Hdb.
  unfold GainStage.getGainDb, GainStage.setGainDb; simpl.
  rewrite std_clamp_id by (unfold GainStage.kMinDb, GainStage.kMaxDb; lra).
  assert (Hfloor : GainStage.kMinLin <= GainStage.dbToLinear db).
  { unfold GainStage.kMinLin, GainStage.dbToLinear.
    rewrite <- pow10_m3. apply pow10_le. lra. }
  rewrite std_max_Rmax, Rmax_left by exact Hfloor.
  unfold GainStage.linearToDb.
  destruct (Rle_dec (GainStage.dbToLinear db) 0) as [Hneg|_].
  - pose proof (pow10_pos (db / 20)). unfold GainStage.dbToLinear in Hneg. lra.
  - unfold GainStage.dbToLinear. rewrite log10_pow10. lra.
Qed.

(** The lower end of the range, where the clamp and the floor both sit
    on their boundary. *)
Lemma gain_db_roundtrip_witness :
  (GainStage.getGainDb (GainStage.setGainDb (-60) GainStage.ctor)).1 = -60.
Proof. apply (gain_db_roundtrip (-60) GainStage.ctor); lra. Defined.

(** *** Convergence of the gain ramp *)





Lemma gain_target_in_range (g : R) :
  -60 <= g <= 24 ->
  Rmax (pow10 (std_clamp g (-60) 24 / 20)) (1 / 1000) = pow10 (g / 20).
Proof.
  intros Hg. rewrite std_clamp_id by lra.
  apply Rmax_left. rewrite <- pow10_m3. apply pow10_le. lra.
Qed.







(** ** ParamRegistry *)

Lemma kNumParams_eq : ParamRegistry.kNumParams = 43%Z.
Proof. reflexivity. Qed.

(** The metadata table, slot by slot. *)
Lemma kParamInfo_table :
  ParamRegistry.kParamInfo =
  let perm := ParamRegistry.mkInfo 0 (-1e9) 1e9 in
  [ ParamRegistry.mkInfo 0 (-24) 24;      ParamRegistry.mkInfo 0 (-24) 24;
    ParamRegistry.mkInfo 6 0 24;          ParamRegistry.mkInfo 3 0 24;
    ParamRegistry.mkInfo 5 (1 / 10) 500;  ParamRegistry.mkInfo 100 1 5000;
    perm; perm; perm; perm;
    ParamRegistry.mkInfo 100 20 20000;    ParamRegistry.mkInfo 0 (-24) 24;
    ParamRegistry.mkInfo 1 (1 / 10) 10;
    ParamRegistry.mkInfo 1000 20 20000;   ParamRegistry.mkInfo 0 (-24) 24;
    ParamRegistry.mkInfo 1 (1 / 10) 10;
    ParamRegistry.mkInfo 8000 20 20000;   ParamRegistry.mkInfo 0 (-24) 24;
    ParamRegistry.mkInfo 1 (1 / 10) 10;
    perm; perm; perm; perm; perm; perm; perm; perm; perm; perm; perm;
    ParamRegistry.mkInfo 0 (-60) 24;
    perm; perm; perm; perm; perm; perm; perm; perm; perm;
    ParamRegistry.mkInfo (1 / 2) 0 1;     ParamRegistry.mkInfo (1 / 2) 0 1;
    ParamRegistry.mkInfo 0 0 1 ].
Proof. reflexivity. Qed.

Lemma static_cast_int_small (id : ParamId.t) :
  (0 <= id < 2 ^ 31)%Z -> ParamId.static_cast_int id = id.
Proof.
  intros H. unfold ParamId.static_cast_int.
  rewrite Z.mod_small by lia.
  destruct (Z.ltb_spec id (2 ^ 31)); lia.
Qed.

(** The 32-bit values that [set] and [get] turn away are exactly those
    from [kCount] upwards: the upper half of them casts to a negative
    [int]. *)
Lemma static_cast_int_outside (id : ParamId.t) :
  ParamId.representable id ->
  let i := ParamId.static_cast_int id in
  (i < 0 \/ ParamId.kCount <= i)%Z <-> (ParamId.kCount <= id)%Z.
Proof.
  unfold ParamId.representable, ParamId.static_cast_int, ParamId.kCount.
  intros H. rewrite Z.mod_small by lia.
  destruct (Z.ltb_spec id (2 ^ 31)); lia.
Qed.

Lemma registry_set_ignored (id : ParamId.t) (v : R) (r : ParamRegistry.t) :
  let i := ParamId.static_cast_int id in
  (i < 0 \/ ParamId.kCount <= i)%Z ->
  ParamRegistry.set id v r = r /\ ParamRegistry.get id r = 0.
Proof.
  intros i Hi. unfold ParamRegistry.set, ParamRegistry.get. fold i.
  rewrite kNumParams_eq. unfold ParamId.kCount in Hi.
  destruct (Z.ltb_spec i 0), (Z.geb_spec i 43); simpl; try lia; auto.
Qed.

Lemma registry_set_stored (id : ParamId.t) (v : R) (r : ParamRegistry.t) :
  let i := ParamId.static_cast_int id in
  let info := ParamRegistry.kParamInfo !!! Z.to_nat i in
  let clamped :=
    std_clamp v (ParamRegistry.minValue info) (ParamRegistry.maxValue info) in
  (0 <= i < ParamId.kCount)%Z ->
  ParamRegistry.values_ (ParamRegistry.set id v r)
    = <[Z.to_nat i := clamped]> (ParamRegistry.values_ r) /\
  ParamRegistry.get id r = ParamRegistry.values_ r !!! Z.to_nat i /\
  (registry_wf r -> ParamRegistry.get id (ParamRegistry.set id v r) = clamped).
Proof.
  intros i info clamped Hi. unfold ParamRegistry.set, ParamRegistry.get.
  fold i. rewrite kNumParams_eq. unfold ParamId.kCount in Hi.
  destruct (Z.ltb_spec i 0), (Z.geb_spec i 43); simpl; try lia.
  repeat split. intros Hwf. apply list_lookup_total_insert_eq.
  rewrite Hwf, kNumParams_eq. lia.
Qed.

Lemma registry_set_wf (id : ParamId.t) (v : R) (r : ParamRegistry.t) :
  registry_wf r -> registry_wf (ParamRegistry.set id v r).
Proof.
  unfold registry_wf, ParamRegistry.set. intros Hwf.
  destruct (_ || _)%bool; [exact Hwf|]. simpl. now rewrite length_insert.
Qed.

Lemma registry_ctor_wf : registry_wf ParamRegistry.ctor.
Proof. reflexivity. Qed.

(** After construction every slot holds the default of its table row. *)
Lemma registry_ctor_values :
  ParamRegistry.values_ ParamRegistry.ctor
  = map ParamRegistry.defaultValue ParamRegistry.kParamInfo.
Proof. reflexivity. Qed.

(** Replaces every [kParamInfo !!! n] at a concrete [n] by its row. *)
Ltac table_row :=
  repeat match goal with
  | |- context [ParamRegistry.kParamInfo !!! ?n] =>
      let row := eval hnf in (ParamRegistry.kParamInfo !!! n) in
      change (ParamRegistry.kParamInfo !!! n) with row
  end;
  cbn [ParamRegistry.minValue ParamRegistry.maxValue ParamRegistry.defaultValue].




Lemma enum_gap_cases (id : Z) :
  enum_gap id ->
  In id [6; 7; 8; 9; 19; 20; 21; 22; 23; 24; 25; 26; 27; 28; 29;
         31; 32; 33; 34; 35; 36; 37; 38; 39]%Z.
Proof. unfold enum_gap. simpl. lia. Qed.

(** C10. An integer [id] in a gap of the enumeration (6-9, 19-29, 31-39)
    lies strictly between [0] and [kCount] and names no parameter, yet
    the registry does not turn it away: its table row is the permissive
    fallback, [set(id, v)] stores [v] clamped to [[-1e9, 1e9]] in slot
    [id] (a [v] within the range as it is, [1e9] for a larger one,
    [-1e9] for a smaller one), [get(id)] returns the stored slot, which
    is [0] after construction.  Only an [id] whose [int] value is below
    [0] or at least [43] is ignored by [set] and read as [0] by [get];
    every other one has its slot written. *)
Theorem registry_gap_ids_accepted (id : ParamId.t) (v : R) (r : ParamRegistry.t) :
  registry_wf r -> enum_gap id ->
  (0 < id < ParamId.kCount)%Z /\
  ~ In id ParamId.enumerators /\
  ParamRegistry.kParamInfo !!! Z.to_nat id = ParamRegistry.mkInfo 0 (-1e9) 1e9 /\
  ParamRegistry.values_ (ParamRegistry.set id v r)
    = <[Z.to_nat id := std_clamp v (-1e9) 1e9]> (ParamRegistry.values_ r) /\
  ParamRegistry.get id (ParamRegistry.set id v r) = std_clamp v (-1e9) 1e9 /\
  (-1e9 <= v <= 1e9 -> ParamRegistry.get id (ParamRegistry.set id v r) = v) /\
  ParamRegistry.get id r = ParamRegistry.values_ r !!! Z.to_nat id /\
  ParamRegistry.get id ParamRegistry.ctor = 0 /\
  (forall id' v',
     let i' := ParamId.static_cast_int id' in
     ((i' < 0 \/ 43 <= i')%Z ->
        ParamRegistry.set id' v' r = r /\ ParamRegistry.get id' r = 0) /\
     ((0 <= i' < 43)%Z ->
        ParamRegistry.values_ (ParamRegistry.set id' v' r) !! Z.to_nat i'
        = Some (std_clamp v'
                  (ParamRegistry.minValue (ParamRegistry.kParamInfo !!! Z.to_nat i'))
                  (ParamRegistry.maxValue (ParamRegistry.kParamInfo !!! Z.to_nat i'))))) /\
  ParamRegistry.get id (ParamRegistry.set id v r) = Rmax (-1e9) (Rmin v 1e9) /\
  -1e9 <= ParamRegistry.get id (ParamRegistry.set id v r) <= 1e9 /\
  (1e9 <= v -> ParamRegistry.get id (ParamRegistry.set id v r) = 1e9) /\
  (v <= -1e9 -> ParamRegistry.get id (ParamRegistry.set id v r) = -1e9).
Proof.
  intros Hwf Hgap.
  assert (Hrange : (0 < id < ParamId.kCount)%Z)
    by (unfold enum_gap, ParamId.kCount in *; lia).
  assert (Hcast : ParamId.static_cast_int id = id)
    by (apply static_cast_int_small; unfold ParamId.kCount in Hrange; lia).
  assert (Hrow : ParamRegistry.kParamInfo !!! Z.to_nat id
                 = ParamRegistry.mkInfo 0 (-1e9) 1e9).
  { pose proof (enum_gap_cases id Hgap) as Hin. simpl in Hin.
    repeat (destruct Hin as [<- | Hin]; [reflexivity|]). destruct Hin. }
  destruct (registry_set_stored id v r) as (Hset & Hget & Hsetget);
    [rewrite Hcast; lia|].
  rewrite Hcast, Hrow in Hset, Hsetget. rewrite Hcast in Hget.
  cbn [ParamRegistry.minValue ParamRegistry.maxValue] in Hset, Hsetget.
  specialize (Hsetget Hwf).
  assert (Hlohi : -1e9 <= 1e9) by lra.
  split; [exact Hrange|].
  split.
  { intros Hin. unfold enum_gap in Hgap. simpl in Hin.
    unfold ParamId.BloomBasePre_dB, ParamId.BloomBasePost_dB,
      ParamId.BloomPreDepth, ParamId.BloomPostDepth, ParamId.EnvAttackMs,
      ParamId.EnvReleaseMs, ParamId.EqBand1Freq, ParamId.EqBand1GainDb,
      ParamId.EqBand1Q, ParamId.EqBand2Freq, ParamId.EqBand2GainDb,
      ParamId.EqBand2Q, ParamId.EqBand3Freq, ParamId.EqBand3GainDb,
      ParamId.EqBand3Q, ParamId.MasterGain_dB, ParamId.ReverbRoomSize,
      ParamId.ReverbDamping, ParamId.ReverbWet_Norm in Hin. lia. }
  split; [exact Hrow|]. split; [exact Hset|]. split; [exact Hsetget|].
  split; [intros Hv; rewrite Hsetget; now apply std_clamp_id|].
  split; [exact Hget|].
  split.
  { pose proof (enum_gap_cases id Hgap) as Hin. simpl in Hin.
    repeat (destruct Hin as [<- | Hin]; [reflexivity|]). destruct Hin. }
  split.
  { intros id' v' i'. split.
    - intros Hi'. apply (registry_set_ignored id' v' r).
      unfold ParamId.kCount. exact Hi'.
    - intros Hi'.
      destruct (registry_set_stored id' v' r) as (Hset' & _ & _);
        [unfold ParamId.kCount; exact Hi'|].
      rewrite Hset'. apply list_lookup_insert_eq.
      rewrite Hwf, kNumParams_eq. fold i'. lia. }
  rewrite Hsetget.
  split; [now apply std_clamp_Rmax_Rmin|].
  split; [now apply std_clamp_bounds|].
  unfold std_clamp.
  split; intros Hv; destruct (Rlt_dec v (-1e9)), (Rlt_dec 1e9 v); lra.
Qed.

(** Slot 7 belongs to no parameter; on a fresh registry a write of 123
    to it is stored and read back, a write of 2e9 reads back as 1e9 and
    a write of -2e9 as -1e9. *)
Lemma registry_gap_ids_accepted_witness :
  ParamRegistry.get 7%Z (ParamRegistry.set 7%Z 123 ParamRegistry.ctor) = 123 /\
  ParamRegistry.get 7%Z (ParamRegistry.set 7%Z 2e9 ParamRegistry.ctor) = 1e9 /\
  ParamRegistry.get 7%Z (ParamRegistry.set 7%Z (-2e9) ParamRegistry.ctor) = -1e9.
Proof.
  assert (Hwf : registry_wf ParamRegistry.ctor) by reflexivity.
  assert (Hgap : enum_gap 7) by (unfold enum_gap; lia).
  split; [|split].
  - apply (registry_gap_ids_accepted 7%Z 123 ParamRegistry.ctor Hwf Hgap). lra.
  - apply (registry_gap_ids_accepted 7%Z 2e9 ParamRegistry.ctor Hwf Hgap). lra.
  - apply (registry_gap_ids_accepted 7%Z (-2e9) ParamRegistry.ctor Hwf Hgap). lra.
Defined.

(** ** Pipeline *)

Section PipelineFacts.

Context {StagePtr CtrlPtr World : Type}.
Context `{!ProcessorStage StagePtr World, !PipelineController CtrlPtr World}.

Implicit Types (p : Pipeline.t StagePtr CtrlPtr) (st : option (World * list R)).

Lemma run_app p n (xs ys : list Pipeline.Call) st :
  Pipeline.run p n (xs ++ ys) st = Pipeline.run p n ys (Pipeline.run p n xs st).
Proof. unfold Pipeline.run. apply foldl_app. Qed.

Lemma run_None p n (xs : list Pipeline.Call) : Pipeline.run p n xs None = None.
Proof. induction xs as [|x xs IH]; [reflexivity | exact IH]. Qed.

Lemma run_map p n (f : nat -> Pipeline.Call) (l : list nat) st :
  Pipeline.run p n (map f l) st
  = foldl (fun st j => st ≫= Pipeline.exec p n (f j)) st l.
Proof. revert st; induction l as [|j l IH]; intros st; simpl; [|rewrite <- IH]; reflexivity. Qed.

Lemma run_flat_map p n (f : nat -> list Pipeline.Call) (l : list nat) st :
  Pipeline.run p n (flat_map f l) st
  = foldl (fun st j => Pipeline.run p n (f j) st) st l.
Proof.
  revert st; induction l as [|j l IH]; intros st; simpl; [reflexivity|].
  now rewrite run_app, IH.
Qed.

Lemma foldl_ext_fun {A B : Type} (f g : A -> B -> A) (l : list B) (a a' : A) :
  (forall a b, f a b = g a b) -> a = a' -> foldl f a l = foldl g a' l.
Proof.
  intros Hfg <-. revert a; induction l as [|b l IH]; intros a; simpl; [reflexivity|].
  now rewrite Hfg, IH.
Qed.

(** The two loops of [process] perform the calls of [schedule], in that
    order. *)
Lemma process_run p (buffer : list R) (numSamples : Z) (w : World) :
  Pipeline.process buffer numSamples p w
  = Pipeline.run p numSamples
      (Pipeline.schedule (Z.to_nat (Pipeline.numStages_ p))
                         (Z.to_nat (Pipeline.numControllers_ p)))
      (Some (w, buffer)).
Proof.
  unfold Pipeline.process, Pipeline.schedule, for_loop.
  rewrite run_app, run_map, run_flat_map, !for_from_foldl.
  apply foldl_ext_fun; [|apply foldl_ext_fun; [|reflexivity]].
  - intros st s. cbv beta. unfold Pipeline.stage_calls.
    change (Pipeline.run p numSamples (?c :: ?l) st)
      with (Pipeline.run p numSamples l (st ≫= Pipeline.exec p numSamples c)).
    rewrite run_map.
    destruct st as [[w' b']|]; simpl.
    + destruct (Pipeline.stage_at p s) as [stage|]; simpl.
      * rewrite for_from_foldl.
        apply foldl_ext_fun; [|reflexivity]. intros [[w'' b'']|] c; reflexivity.
      * symmetry. clear. induction (seq 0 _) as [|c l IH]; [reflexivity | exact IH].
    + clear. induction (seq 0 _) as [|c l IH]; [reflexivity | exact IH].
  - intros [[w' b']|] c; reflexivity.
Qed.

Lemma run_is_Some p n (calls : list Pipeline.Call) (x : World * list R) :
  Pipeline.wf p ->
  Forall (call_ok (Z.to_nat (Pipeline.numStages_ p))
                  (Z.to_nat (Pipeline.numControllers_ p))) calls ->
  is_Some (Pipeline.run p n calls (Some x)).
Proof.
  intros (_ & _ & _ & _ & Hst & Hct) Hok. revert x.
  induction Hok as [|call calls Hcall _ IH]; intros x; [now eexists|].
  change (is_Some (Pipeline.run p n calls (Pipeline.exec p n call x))).
  assert (Hex : is_Some (Pipeline.exec p n call x)).
  { destruct x as [w b], call as [c | s | c s]; simpl in *.
    - destruct (Hct c Hcall) as [ctrl ->]. now eexists.
    - destruct (Hst s Hcall) as [stage ->]. now eexists.
    - destruct (Hct c (proj1 Hcall)) as [ctrl ->]. now eexists. }
  destruct Hex as [x' ->]. apply IH.
Qed.

Lemma schedule_ok (S C : nat) : Forall (call_ok S C) (Pipeline.schedule S C).
Proof.
  unfold Pipeline.schedule. apply Forall_app. split.
  - apply List.Forall_forall. intros call Hin.
    apply in_map_iff in Hin as (c & <- & Hc). apply in_seq in Hc. simpl. lia.
  - apply List.Forall_forall. intros call Hin.
    apply in_flat_map in Hin as (s & Hs & Hin). apply in_seq in Hs.
    destruct Hin as [<- | Hin]; [simpl; lia|].
    apply in_map_iff in Hin as (c & <- & Hc). apply in_seq in Hc. simpl. lia.
Qed.

(** *** The registration methods maintain [wf] *)

Lemma ctor_wf : Pipeline.wf (@Pipeline.ctor StagePtr CtrlPtr).
Proof.
  unfold Pipeline.wf; simpl.
  unfold Pipeline.kMaxStages, Pipeline.kMaxControllers.
  repeat split; try lia; intros ? ?; lia.
Qed.

Lemma addStage_wf p p' (stage : option StagePtr) :
  Pipeline.wf p -> Pipeline.addStage stage p = Some p' -> Pipeline.wf p'.
Proof.
  intros (HS & HC & HlS & HlC & Hst & Hct). unfold Pipeline.addStage.
  destruct (Z.ltb_spec (Pipeline.numStages_ p) Pipeline.kMaxStages); [|discriminate].
  destruct stage as [x|]; [|discriminate]. intros [= <-].
  unfold Pipeline.wf, Pipeline.stage_at, Pipeline.controller_at in *; simpl.
  rewrite length_insert. repeat split; try lia; try assumption.
  intros s Hs.
  destruct (decide (s = Z.to_nat (Pipeline.numStages_ p))) as [-> | Hne].
  - rewrite list_lookup_insert_eq by lia. now eexists.
  - rewrite list_lookup_insert_ne by lia. apply Hst. lia.
Qed.

Lemma addController_wf p p' (controller : option CtrlPtr) :
  Pipeline.wf p -> Pipeline.addController controller p = Some p' -> Pipeline.wf p'.
Proof.
  intros (HS & HC & HlS & HlC & Hst & Hct). unfold Pipeline.addController.
  destruct (Z.ltb_spec (Pipeline.numControllers_ p) Pipeline.kMaxControllers);
    [|discriminate].
  destruct controller as [x|]; [|discriminate]. intros [= <-].
  unfold Pipeline.wf, Pipeline.stage_at, Pipeline.controller_at in *; simpl.
  rewrite length_insert. repeat split; try lia; try assumption.
  intros c Hc.
  destruct (decide (c = Z.to_nat (Pipeline.numControllers_ p))) as [-> | Hne].
  - rewrite list_lookup_insert_eq by lia. now eexists.
  - rewrite list_lookup_insert_ne by lia. apply Hct. lia.
Qed.

End PipelineFacts.

(** *** Counting the calls of a block *)

Lemma count_app (f : Pipeline.Call -> bool) (xs ys : list Pipeline.Call) :
  Pipeline.count f (xs ++ ys) = (Pipeline.count f xs + Pipeline.count f ys)%nat.
Proof. unfold Pipeline.count. now rewrite List.filter_app, length_app. Qed.

Lemma count_cons (f : Pipeline.Call -> bool) (x : Pipeline.Call) (xs : list Pipeline.Call) :
  Pipeline.count f (x :: xs)
  = ((if f x then 1 else 0) + Pipeline.count f xs)%nat.
Proof. unfold Pipeline.count. simpl. now destruct (f x). Qed.

Lemma count_map_none (f : Pipeline.Call -> bool) (g : nat -> Pipeline.Call)
  (l : list nat) :
  (forall j, f (g j) = false) -> Pipeline.count f (map g l) = 0%nat.
Proof.
  intros Hf. induction l as [|j l IH]; [reflexivity|].
  simpl. rewrite count_cons, Hf, IH. reflexivity.
Qed.

Lemma count_map_one (f : Pipeline.Call -> bool) (g : nat -> Pipeline.Call)
  (c i n : nat) :
  (forall j, f (g j) = Nat.eqb c j) ->
  Pipeline.count f (map g (seq i n))
  = if ((i <=? c) && (c <? i + n))%nat then 1%nat else 0%nat.
Proof.
  intros Hf. revert i; induction n as [|n IH]; intros i.
  - unfold Pipeline.count. simpl.
    destruct (Nat.leb_spec i c), (Nat.ltb_spec c (i + 0)); simpl; lia.
  - simpl. rewrite count_cons, Hf, IH.
    destruct (Nat.eqb_spec c i), (Nat.leb_spec (S i) c), (Nat.leb_spec i c),
      (Nat.ltb_spec c (S i + n)), (Nat.ltb_spec c (i + S n)); simpl; lia.
Qed.

Lemma count_flat_map_each (f : Pipeline.Call -> bool)
  (g : nat -> list Pipeline.Call) (k : nat) (l : list nat) :
  (forall j, In j l -> Pipeline.count f (g j) = k) ->
  Pipeline.count f (flat_map g l) = (length l * k)%nat.
Proof.
  induction l as [|j l IH]; intros Hk; [reflexivity|].
  simpl. rewrite count_app, IH, Hk; [reflexivity | now left |].
  intros j' Hj'. apply Hk. now right.
Qed.

Lemma count_flat_map_one (f : Pipeline.Call -> bool)
  (g : nat -> list Pipeline.Call) (s i n : nat) :
  (forall j, Pipeline.count f (g j) = if Nat.eqb s j then 1%nat else 0%nat) ->
  Pipeline.count f (flat_map g (seq i n))
  = if ((i <=? s) && (s <? i + n))%nat then 1%nat else 0%nat.
Proof.
  intros Hf. revert i; induction n as [|n IH]; intros i.
  - unfold Pipeline.count. simpl.
    destruct (Nat.leb_spec i s), (Nat.ltb_spec s (i + 0)); simpl; lia.
  - simpl. rewrite count_app, Hf, IH.
    destruct (Nat.eqb_spec s i), (Nat.leb_spec (S i) s), (Nat.leb_spec i s),
      (Nat.ltb_spec s (S i + n)), (Nat.ltb_spec s (i + S n)); simpl; lia.
Qed.

Lemma schedule_length (S C : nat) :
  length (Pipeline.schedule S C) = (S + S * C + C)%nat.
Proof.
  unfold Pipeline.schedule.
  rewrite length_app, length_map, length_seq.
  assert (H : forall l, length (flat_map (Pipeline.stage_calls C) l)
                        = (length l * (1 + C))%nat).
  { induction l as [|s l IH]; [reflexivity|].
    simpl. rewrite length_app, IH, length_map, length_seq. lia. }
  rewrite H, length_seq. lia.
Qed.

Lemma schedule_count_preProcess (S C c : nat) :
  (c < C)%nat ->
  Pipeline.count (Pipeline.is_preProcess_of c) (Pipeline.schedule S C) = 1%nat.
Proof.
  intros Hc. unfold Pipeline.schedule. rewrite count_app.
  rewrite (count_map_one _ _ c) by reflexivity.
  rewrite (count_flat_map_each _ _ 0).
  - destruct (Nat.leb_spec 0 c), (Nat.ltb_spec c (0 + C)); simpl; lia.
  - intros s _. unfold Pipeline.stage_calls. rewrite count_cons. simpl.
    now apply count_map_none.
Qed.

Lemma schedule_count_process (S C s : nat) :
  (s < S)%nat ->
  Pipeline.count (Pipeline.is_process_of s) (Pipeline.schedule S C) = 1%nat.
Proof.
  intros Hs. unfold Pipeline.schedule. rewrite count_app.
  rewrite count_map_none by reflexivity.
  rewrite (count_flat_map_one _ _ s).
  - destruct (Nat.leb_spec 0 s), (Nat.ltb_spec s (0 + S)); simpl; lia.
  - intros j. unfold Pipeline.stage_calls. rewrite count_cons.
    rewrite count_map_none by reflexivity. simpl.
    destruct (Nat.eqb s j); reflexivity.
Qed.

Lemma schedule_count_betweenStages (S C c : nat) :
  (c < C)%nat ->
  Pipeline.count (Pipeline.is_betweenStages_of c) (Pipeline.schedule S C) = S.
Proof.
  intros Hc. unfold Pipeline.schedule. rewrite count_app.
  rewrite count_map_none by reflexivity.
  rewrite (count_flat_map_each _ _ 1).
  - rewrite length_seq. lia.
  - intros s _. unfold Pipeline.stage_calls. rewrite count_cons. simpl.
    rewrite (count_map_one _ _ c) by reflexivity.
    destruct (Nat.leb_spec 0 c), (Nat.ltb_spec c (0 + C)); simpl; lia.
Qed.

(** C1. For a pipeline with [S] registered stages and [C] registered
    controllers, one [process(buffer, n)] returns, having performed
    exactly the following virtual calls in this order: every
    controller's [preProcess(buffer, n)] in registration order, then for
    each stage index [s = 0..S-1] the stage's [process(buffer, n)]
    followed by every controller's [betweenStages(s, buffer, n)] in
    registration order.  So each stage's [process] is called once, each
    controller's [preProcess] once, each controller's [betweenStages]
    [S] times: [S + S*C + C] calls in all. *)
Theorem pipeline_process_calls
  {StagePtr CtrlPtr World : Type}
  `{!ProcessorStage StagePtr World, !PipelineController CtrlPtr World}
  (p : Pipeline.t StagePtr CtrlPtr) (buffer : list R) (numSamples : Z)
  (w : World) :
  Pipeline.wf p ->
  let S := Z.to_nat (Pipeline.numStages_ p) in
  let C := Z.to_nat (Pipeline.numControllers_ p) in
  let calls :=
    map Pipeline.CallPreProcess (seq 0 C)
    ++ flat_map
         (fun s => Pipeline.CallProcess s
                   :: map (fun c => Pipeline.CallBetweenStages c s) (seq 0 C))
         (seq 0 S) in
  Pipeline.process buffer numSamples p w
    = Pipeline.run p numSamples calls (Some (w, buffer)) /\
  is_Some (Pipeline.process buffer numSamples p w) /\
  (forall s, (s < S)%nat -> Pipeline.count (Pipeline.is_process_of s) calls = 1%nat) /\
  (forall c, (c < C)%nat -> Pipeline.count (Pipeline.is_preProcess_of c) calls = 1%nat) /\
  (forall c, (c < C)%nat -> Pipeline.count (Pipeline.is_betweenStages_of c) calls = S) /\
  length calls = (S + S * C + C)%nat.
Proof.
  intros Hwf S C calls.
  change calls with (Pipeline.schedule S C).
  repeat split.
  - apply process_run.
  - rewrite process_run. apply run_is_Some; [exact Hwf | apply schedule_ok].
  - intros s. apply schedule_count_process.
  - intros c. apply schedule_count_preProcess.
  - intros c. apply schedule_count_betweenStages.
  - apply schedule_length.
Qed.

Lemma recording_pipeline_wf (p : Pipeline.t nat nat) :
  recording_pipeline = Some p -> Pipeline.wf p.
Proof.
  unfold recording_pipeline. intros H.
  destruct (Pipeline.addStage (Some 10%nat) Pipeline.ctor) as [p1|] eqn:H1;
    [|discriminate].
  simpl in H.
  destruct (Pipeline.addStage (Some 11%nat) p1) as [p2|] eqn:H2; [|discriminate].
  simpl in H.
  eapply addController_wf; [|exact H].
  eapply addStage_wf; [|exact H2].
  eapply addStage_wf; [|exact H1].
  apply ctor_wf.
Qed.

(** With two stages and one controller a block is five calls: the
    controller's [preProcess], then each stage followed by the
    controller's hook for its index. *)
Lemma pipeline_process_calls_witness :
  exists p,
    recording_pipeline = Some p /\
    Pipeline.process [] 128 p []
    = Some ([EvPreProcess 20 128;
             EvProcess 10 128; EvBetweenStages 20 0 128;
             EvProcess 11 128; EvBetweenStages 20 1 128], []).
Proof.
  eexists. split; [reflexivity|].
  match goal with
  | |- Pipeline.process _ _ ?p _ = _ =>
      destruct (pipeline_process_calls p [] 128 [])
        as [Hrun _]; [apply recording_pipeline_wf; reflexivity|]
  end.
  rewrite Hrun. reflexivity.
Defined.

(** ** NamStage *)

(** An in-place loop applying [f] to the samples of a block. *)
Lemma for_from_alter (f : R -> R) (count i : nat) (buffer : list R) (j : nat) :
  for_from count i (fun k b => alter f k b) buffer !! j
  = if ((i <=? j) && (j <? i + count))%nat then f <$> buffer !! j else buffer !! j.
Proof.
  revert i buffer; induction count as [|count IH]; intros i buffer; simpl.
  - destruct (Nat.leb_spec i j), (Nat.ltb_spec j (i + 0)); simpl; try reflexivity; lia.
  - rewrite IH.
    destruct (Nat.leb_spec (S i) j), (Nat.ltb_spec j (S i + count)),
      (Nat.leb_spec i j), (Nat.ltb_spec j (i + S count)); simpl; try lia;
      try (now rewrite list_lookup_alter_ne by lia).
    assert (j = i) as -> by lia. now rewrite list_lookup_alter_eq.
Qed.

(** An in-place loop overwriting the samples of a block with [h k]. *)
Lemma for_from_insert (h : nat -> R) (count i : nat) (buffer : list R) (j : nat) :
  for_from count i (fun k b => <[k := h k]> b) buffer !! j
  = if ((i <=? j) && (j <? i + count))%nat
    then (fun _ => h j) <$> buffer !! j else buffer !! j.
Proof.
  revert i buffer; induction count as [|count IH]; intros i buffer; simpl.
  - destruct (Nat.leb_spec i j), (Nat.ltb_spec j (i + 0)); simpl; try reflexivity; lia.
  - rewrite IH.
    destruct (Nat.leb_spec (S i) j), (Nat.ltb_spec j (S i + count)),
      (Nat.leb_spec i j), (Nat.ltb_spec j (i + S count)); simpl; try lia;
      try (now rewrite list_lookup_insert_ne by lia).
    assert (j = i) as -> by lia. rewrite list_lookup_insert.
    destruct (decide (i = i /\ (i < length buffer)%nat)) as [[_ Hlt] | Hn].
    + destruct (lookup_lt_is_Some_2 buffer i Hlt) as [x ->]. reflexivity.
    + rewrite (lookup_ge_None_2 buffer i) by lia. reflexivity.
Qed.

Lemma scale_loop (g : R) (n : nat) (buffer : list R) :
  (n <= length buffer)%nat ->
  for_from n 0 (fun k b => alter (fun x => x * g) k b) buffer
  = ((fun x => x * g) <$> take n buffer) ++ drop n buffer.
Proof.
  intros Hn. apply list_eq; intros j. rewrite for_from_alter. simpl.
  destruct (Nat.ltb_spec j n).
  - rewrite lookup_app_l by (rewrite length_fmap, length_take; lia).
    now rewrite list_lookup_fmap, lookup_take_lt.
  - rewrite lookup_app_r by (rewrite length_fmap, length_take; lia).
    rewrite lookup_drop, length_fmap, length_take. f_equal. lia.
Qed.

Lemma copy_scaled_loop (g : R) (n : nat) (output buffer : list R) :
  (n <= length buffer)%nat -> (n <= length output)%nat ->
  for_from n 0 (fun k b => <[k := (output !!! k) * g]> b) buffer
  = ((fun y => y * g) <$> take n output) ++ drop n buffer.
Proof.
  intros Hn Ho. apply list_eq; intros j.
  rewrite (for_from_insert (fun k => (output !!! k) * g)). simpl.
  destruct (Nat.ltb_spec j n).
  - rewrite lookup_app_l by (rewrite length_fmap, length_take; lia).
    rewrite list_lookup_fmap, lookup_take_lt by lia.
    destruct (lookup_lt_is_Some_2 buffer j) as [x ->]; [lia|].
    destruct (lookup_lt_is_Some_2 output j) as [y Hy]; [lia|].
    rewrite Hy. simpl. now rewrite (list_lookup_total_correct _ _ _ Hy).
  - rewrite lookup_app_r by (rewrite length_fmap, length_take; lia).
    rewrite lookup_drop, length_fmap, length_take. f_equal. lia.
Qed.

Lemma fmap_mult_1 (l : list R) : (fun x => x * 1) <$> l = l.
Proof.
  induction l as [|x l IH]; [reflexivity|].
  rewrite fmap_cons, IH. f_equal. lra.
Qed.

Section NamStageFacts.

Context {Model : Type} `{!NeuralModel Model}.

Implicit Types (st : NamStage.t Model).

(** The part of [process] that follows the pending check, for a stage
    holding model [m]. *)
Lemma nam_process_active st (m : Model) (buffer : list R) (numSamples : Z) :
  let n := Z.to_nat numSamples in
  let input := (fun x => x * NamStage.inputGainLinear_ st) <$> take n buffer in
  NamStage.modelPending_ st = false ->
  NamStage.model_ st = Some m ->
  (n <= length buffer)%nat ->
  (n <= length (NamStage.outputBuffer_ st))%nat ->
  (NamStage.process buffer numSamples st).2
    = ((fun y => y * NamStage.outputGainLinear_ st) <$> (Process m input).2)
      ++ drop n buffer /\
  NamStage.model_ (NamStage.process buffer numSamples st).1
    = Some (Process m input).1.
Proof.
  intros n input Hpend Hm Hn Ho.
  unfold NamStage.process. rewrite Hpend, Hm. fold n.
  set (scaled := if Req_dec_T (NamStage.inputGainLinear_ st) 1 then buffer
                 else for_loop numSamples _ buffer).
  assert (Hscaled : scaled = input ++ drop n buffer).
  { unfold scaled, input. destruct (Req_dec_T _ 1) as [-> | _].
    - now rewrite fmap_mult_1, take_drop.
    - unfold for_loop. fold n. now apply scale_loop. }
  assert (Hlen : length input = n).
  { unfold input. rewrite length_fmap, length_take. lia. }
  assert (Htake : take n scaled = input).
  { rewrite Hscaled. now apply take_app_length'. }
  assert (Hdrop : drop n scaled = drop n buffer).
  { rewrite Hscaled. now apply drop_app_length'. }
  rewrite Htake.
  pose proof (Process_length m input) as Hout.
  destruct (Process m input) as [m' out]. simpl in Hout |- *.
  rewrite Hlen in Hout.
  assert (Hob : take n (memcpy (NamStage.outputBuffer_ st) out n) = out).
  { unfold memcpy. rewrite (take_ge out) by lia. now apply take_app_length'. }
  split; [|reflexivity].
  destruct (Req_dec_T (NamStage.outputGainLinear_ st) 1) as [-> | _].
  - unfold memcpy at 1. now rewrite Hob, Hdrop, fmap_mult_1.
  - unfold for_loop. fold n. rewrite copy_scaled_loop.
    + now rewrite Hob, Hdrop.
    + rewrite Hscaled, length_app, length_drop. lia.
    + unfold memcpy. rewrite length_app, length_take, length_drop. lia.
Qed.

(** C2. [process(buffer, n)] first looks at the pending flag: if it is
    set, the pending model and path move into the active slot, the
    pending slot is left empty, the flag is cleared and the calibration
    gains are recomputed from the newly active model ([10^(dB/20)] of
    its recommended adjustments, [1] and [1] when it is null); otherwise
    the stage is left as it is.  Then, with no active model, the call
    returns the buffer and that stage unchanged; with an active model the
    first [n] samples (a block of [n >= 0] samples that fits the buffer
    and the scratch buffer sized by [prepare]) become the model's block output, each times the
    output gain, for the first [n] input samples each times the input
    gain, and the samples after the block keep their value. *)
Theorem nam_process_swap_then_infer
  st (buffer : list R) (numSamples : Z) :
  let n := Z.to_nat numSamples in
  (0 <= numSamples)%Z ->
  (n <= length buffer)%nat ->
  (n <= length (NamStage.outputBuffer_ st))%nat ->
  let st1 := if NamStage.modelPending_ st
             then NamStage.applyPendingModel st else st in
  let r := NamStage.process buffer numSamples st in
  (NamStage.modelPending_ st = true ->
     NamStage.model_ st1 = NamStage.pendingModel_ st /\
     NamStage.currentModelPath_ st1 = NamStage.pendingModelPath_ st /\
     NamStage.pendingModel_ st1 = None /\
     NamStage.modelPending_ st1 = false /\
     NamStage.inputGainLinear_ st1
       = match NamStage.pendingModel_ st with
         | Some m => Rpower 10 (GetRecommendedInputDBAdjustment m / 20)
         | None => 1
         end /\
     NamStage.outputGainLinear_ st1
       = match NamStage.pendingModel_ st with
         | Some m => Rpower 10 (GetRecommendedOutputDBAdjustment m / 20)
         | None => 1
         end) /\
  (NamStage.modelPending_ st = false -> st1 = st) /\
  NamStage.modelPending_ r.1 = false /\
  (NamStage.model_ st1 = None -> r = (st1, buffer)) /\
  (forall m, NamStage.model_ st1 = Some m ->
     let input :=
       (fun x => x * NamStage.inputGainLinear_ st1) <$> take n buffer in
     r.2 = ((fun y => y * NamStage.outputGainLinear_ st1) <$> (Process m input).2)
           ++ drop n buffer /\
     NamStage.model_ r.1 = Some (Process m input).1 /\
     NamStage.inputGainLinear_ r.1 = NamStage.inputGainLinear_ st1 /\
     NamStage.outputGainLinear_ r.1 = NamStage.outputGainLinear_ st1 /\
     NamStage.currentModelPath_ r.1 = NamStage.currentModelPath_ st1).
Proof.
  intros n _ Hn Ho st1 r.
  assert (Hflag : NamStage.modelPending_ st1 = false).
  { unfold st1. destruct (NamStage.modelPending_ st) eqn:Hp; [|exact Hp].
    unfold NamStage.applyPendingModel, NamStage.updateCalibration; simpl.
    destruct (NamStage.pendingModel_ st); reflexivity. }
  assert (Hob : NamStage.outputBuffer_ st1 = NamStage.outputBuffer_ st).
  { unfold st1. destruct (NamStage.modelPending_ st); [|reflexivity].
    unfold NamStage.applyPendingModel, NamStage.updateCalibration; simpl.
    destruct (NamStage.pendingModel_ st); reflexivity. }
  assert (Hr : r = NamStage.process buffer numSamples st1).
  { unfold r. unfold NamStage.process at 2. rewrite Hflag.
    unfold NamStage.process. reflexivity. }
  split; [|split; [|split; [|split]]].
  - intros Hp. unfold st1. rewrite Hp.
    unfold NamStage.applyPendingModel, NamStage.updateCalibration; simpl.
    destruct (NamStage.pendingModel_ st); repeat split; reflexivity.
  - intros Hp. unfold st1. now rewrite Hp.
  - rewrite Hr. unfold NamStage.process. rewrite Hflag.
    destruct (NamStage.model_ st1); [|exact Hflag].
    destruct (Process _ _). exact Hflag.
  - intros Hnone. rewrite Hr. unfold NamStage.process.
    now rewrite Hflag, Hnone.
  - intros m Hm input.
    destruct (nam_process_active st1 m buffer numSamples Hflag Hm Hn) as [H1 H2];
      [now rewrite Hob|].
    rewrite Hr. split; [exact H1|]. split; [exact H2|]. clear H1 H2.
    unfold NamStage.process. rewrite Hflag, Hm.
    destruct (Process _ _). repeat split.
Qed.

(** C3. When [CreateFromFile(path)] throws or returns null,
    [loadModel(path)] returns [false] and the stage is exactly as it
    was: the active model, [hasModel()], [modelPath()], the pending slot,
    the pending flag and the calibration gains are those from before the
    call, and so is whatever [process] does next. *)
Theorem nam_loadModel_failure st (path : string) :
  CreateFromFile path = Throws \/ CreateFromFile path = Null ->
  let r := NamStage.loadModel path st in
  r = (false, st) /\
  NamStage.model_ r.2 = NamStage.model_ st /\
  NamStage.hasModel r.2 = NamStage.hasModel st /\
  NamStage.modelPath r.2 = NamStage.modelPath st /\
  NamStage.pendingModel_ r.2 = NamStage.pendingModel_ st /\
  NamStage.pendingModelPath_ r.2 = NamStage.pendingModelPath_ st /\
  NamStage.modelPending_ r.2 = NamStage.modelPending_ st /\
  NamStage.inputGainLinear_ r.2 = NamStage.inputGainLinear_ st /\
  NamStage.outputGainLinear_ r.2 = NamStage.outputGainLinear_ st /\
  (forall buffer numSamples,
     NamStage.process buffer numSamples r.2
     = NamStage.process buffer numSamples st).
Proof.
  intros Hfail r.
  assert (Hr : r = (false, st)).
  { unfold r, NamStage.loadModel. destruct Hfail as [-> | ->]; reflexivity. }
  rewrite Hr. simpl. repeat split.
Qed.

End NamStageFacts.

(** On the first block after a successful load the doubling model is
    swapped in and the four samples go through it. *)
Lemma nam_process_swap_then_infer_witness :
  (NamStage.process [1; 2; 3; 4] 4 loaded_stage).2
  = ((fun y => y * Rpower 10 (0 / 20))
       <$> ((fun x => 2 * x)
              <$> ((fun x => x * Rpower 10 (0 / 20)) <$> [1; 2; 3; 4])))
    ++ [].
Proof.
  destruct (nam_process_swap_then_infer loaded_stage [1; 2; 3; 4] 4)
    as (_ & _ & _ & _ & H); [lia | simpl; lia | simpl; lia |].
  destruct (H 2 eq_refl) as [Hbuffer _]. exact Hbuffer.
Defined.

(** A load that returns null leaves the loaded stage as it was. *)
Lemma nam_loadModel_failure_witness :
  NamStage.loadModel "missing.nam" loaded_stage = (false, loaded_stage).
Proof.
  apply (nam_loadModel_failure loaded_stage "missing.nam").
  right. reflexivity.
Defined.

(** ** NamStage under concurrent load requests *)

Section NamStoresFacts.

Context {Model : Type} `{!NeuralModel Model}.

Implicit Types (st : NamStage.t Model).

(** Run without interruption, the statements are the functions. *)
Lemma stores_loadModel st (path : string) :
  NamStores.run (NamStores.loadModel path st) st = (NamStage.loadModel path st).2.
Proof.
  unfold NamStores.loadModel, NamStage.loadModel.
  destruct (CreateFromFile path); reflexivity.
Qed.

Lemma stores_unloadModel st :
  NamStores.run NamStores.unloadModel st = NamStage.unloadModel st.
Proof. reflexivity. Qed.

Lemma stores_applyPendingModel st :
  NamStores.run NamStores.applyPendingModel st = NamStage.applyPendingModel st.
Proof. reflexivity. Qed.

End NamStoresFacts.

Section NamRace.

Context {Model : Type} `{!NeuralModel Model}.

Implicit Types (st : NamStage.t Model).

Lemma stores_loadModel_created st (path : string) (raw : Model) :
  CreateFromFile path = Created raw ->
  NamStores.loadModel path st
  = [NamStores.SetPendingModel
       (Some (if (0 <? NamStage.maxBlockSize_ st)%Z
              then SetMaxAudioBufferSize (NamStage.maxBlockSize_ st) raw
              else raw));
     NamStores.SetPendingModelPath path;
     NamStores.RaisePending].
Proof. intros Hc. unfold NamStores.loadModel. now rewrite Hc. Qed.

Lemma loadModel_created st (path : string) (raw : Model) :
  CreateFromFile path = Created raw ->
  (NamStage.loadModel path st).2
  = NamStage.mk (NamStage.model_ st) (NamStage.currentModelPath_ st)
      (Some (if (0 <? NamStage.maxBlockSize_ st)%Z
             then SetMaxAudioBufferSize (NamStage.maxBlockSize_ st) raw
             else raw))
      path true
      (NamStage.outputBuffer_ st) (NamStage.maxBlockSize_ st)
      (NamStage.sampleRate_ st)
      (NamStage.inputGainLinear_ st) (NamStage.outputGainLinear_ st).
Proof. intros Hc. unfold NamStage.loadModel. now rewrite Hc. Qed.

(** With the flag down, [process] leaves path, pending slot and flag
    as they are. *)
Lemma nam_process_pending_untouched st (buffer : list R) (numSamples : Z) :
  NamStage.modelPending_ st = false ->
  let after := (NamStage.process buffer numSamples st).1 in
  NamStage.currentModelPath_ after = NamStage.currentModelPath_ st /\
  NamStage.pendingModel_ after = NamStage.pendingModel_ st /\
  NamStage.modelPending_ after = false.
Proof.
  intros Hflag. cbv zeta. unfold NamStage.process. rewrite Hflag.
  destruct (NamStage.model_ st) as [m|].
  - destruct (Process _ _). cbn [fst]. now repeat split.
  - cbn [fst]. now repeat split.
Qed.

(** C8. [loadModel] does not wait for anything: its three writes to the
    pending slot, the pending path and the flag can fall between the
    writes of another [loadModel] and between those of the swap in
    [process].  Two loads racing can leave the model of one staged under
    the path of the other, which the swap then makes active.  A load
    racing the swap of an earlier one can leave the earlier model active
    under the later path while the later model sits in the pending slot
    with the flag down, so that no later [process] ever makes it
    active: a staged model is lost. *)
Theorem nam_concurrent_load_loses_and_tears
  st (pathA pathB : string) (rawA rawB : Model) :
  CreateFromFile pathA = Created rawA ->
  CreateFromFile pathB = Created rawB ->
  let sized raw := if (0 <? NamStage.maxBlockSize_ st)%Z
                   then SetMaxAudioBufferSize (NamStage.maxBlockSize_ st) raw
                   else raw in
  (exists schedule,
     Interleaving (NamStores.loadModel pathA st) (NamStores.loadModel pathB st)
       schedule /\
     let st' := NamStores.run schedule st in
     NamStage.modelPending_ st' = true /\
     NamStage.pendingModel_ st' = Some (sized rawB) /\
     NamStage.pendingModelPath_ st' = pathA /\
     NamStage.model_ (NamStage.applyPendingModel st') = Some (sized rawB) /\
     NamStage.modelPath (NamStage.applyPendingModel st') = pathA) /\
  (let staged := (NamStage.loadModel pathA st).2 in
   exists schedule,
     Interleaving NamStores.applyPendingModel (NamStores.loadModel pathB staged)
       schedule /\
     let st' := NamStores.run schedule staged in
     NamStage.model_ st' = Some (sized rawA) /\
     NamStage.modelPath st' = pathB /\
     NamStage.pendingModel_ st' = Some (sized rawB) /\
     NamStage.modelPending_ st' = false /\
     forall (buffer : list R) (numSamples : Z),
       let after := (NamStage.process buffer numSamples st').1 in
       NamStage.modelPath after = pathB /\
       NamStage.pendingModel_ after = Some (sized rawB) /\
       NamStage.modelPending_ after = false).
Proof.
  intros HA HB sized. split.
  - exists [NamStores.SetPendingModel (Some (sized rawA));
            NamStores.SetPendingModel (Some (sized rawB));
            NamStores.SetPendingModelPath pathB;
            NamStores.SetPendingModelPath pathA;
            NamStores.RaisePending;
            NamStores.RaisePending].
    split.
    + rewrite (stores_loadModel_created st pathA rawA HA),
              (stores_loadModel_created st pathB rawB HB).
      fold (sized rawA) (sized rawB).
      apply interleaving_left, interleaving_right, interleaving_right,
            interleaving_left, interleaving_left, interleaving_right,
            interleaving_nil.
    + cbv zeta. repeat split.
  - cbv zeta. rewrite (loadModel_created st pathA rawA HA).
    fold (sized rawA).
    set (staged := NamStage.mk _ _ _ _ _ _ _ _ _ _).
    exists [NamStores.MovePendingModel;
            NamStores.SetPendingModel (Some (sized rawB));
            NamStores.SetPendingModelPath pathB;
            NamStores.RaisePending;
            NamStores.MovePendingModelPath;
            NamStores.LowerPending;
            NamStores.UpdateCalibration].
    split.
    + rewrite (stores_loadModel_created staged pathB rawB HB).
      change (NamStage.maxBlockSize_ staged) with (NamStage.maxBlockSize_ st).
      fold (sized rawB). unfold NamStores.applyPendingModel.
      apply interleaving_left, interleaving_right, interleaving_right,
            interleaving_right, interleaving_left, interleaving_left,
            interleaving_left, interleaving_nil.
    + split; [reflexivity|]. split; [reflexivity|]. split; [reflexivity|].
      split; [reflexivity|].
      intros buffer numSamples.
      match goal with
      | |- context [NamStage.process buffer numSamples ?s] =>
          destruct (nam_process_pending_untouched s buffer numSamples eq_refl)
            as (Hp & Hpm & Hpf)
      end.
      cbv zeta in Hp, Hpm, Hpf. cbv zeta.
      unfold NamStage.modelPath. rewrite Hp, Hpm, Hpf.
      split; [reflexivity|]. split; reflexivity.
Qed.

End NamRace.

(** A prepared stage, "a.nam" staged and being swapped in while
    "b.nam" is loaded: "a.nam" ends up active under the path "b.nam", and
    "b.nam" is left behind with the flag down. *)
Lemma nam_concurrent_load_loses_and_tears_witness :
  let staged := (NamStage.loadModel "a.nam"
                   (NamStage.prepare 48000 4096 (NamStage.ctor (Model := string)))).2 in
  exists schedule,
    Interleaving NamStores.applyPendingModel (NamStores.loadModel "b.nam" staged)
      schedule /\
    NamStage.model_ (NamStores.run schedule staged) = Some "a.nam"%string /\
    NamStage.modelPath (NamStores.run schedule staged) = "b.nam"%string /\
    NamStage.pendingModel_ (NamStores.run schedule staged) = Some "b.nam"%string /\
    NamStage.modelPending_ (NamStores.run schedule staged) = false.
Proof.
  destruct (nam_concurrent_load_loses_and_tears
              (NamStage.prepare 48000 4096 (NamStage.ctor (Model := string)))
              "a.nam" "b.nam" "a.nam"%string "b.nam"%string)
    as [_ (schedule & Hil & Hm & Hp & Hpm & Hflag & _)];
    [reflexivity | reflexivity |].
  exists schedule. split; [exact Hil|].
  split; [exact Hm|]. split; [exact Hp|]. split; [exact Hpm | exact Hflag].
Defined.

(** ** The embedding on small inputs *)

(** An unprepared stage has a zero coefficient: the gain is applied from
    the first sample on. *)
Example gain_process_unprepared :
  (GainStage.process [1; 2; 3] 3 (GainStage.setGainLinear 2 GainStage.ctor)).2
  = [1 * 2; 2 * 2; 3 * 2].
Proof.
  unfold GainStage.process, for_loop, GainStage.setGainLinear, std_max,
    GainStage.kMinLin. simpl.
  destruct (Rlt_dec 2 (1 / 1000)); [lra|]. simpl.
  repeat f_equal; lra.
Qed.

(** A block shorter than the buffer leaves the tail alone. *)
Example gain_process_short_block :
  (GainStage.process [1; 2; 3] 2 (GainStage.setGainLinear 2 GainStage.ctor)).2
  = [1 * 2; 2 * 2; 3].
Proof.
  unfold GainStage.process, for_loop, GainStage.setGainLinear, std_max,
    GainStage.kMinLin. simpl.
  destruct (Rlt_dec 2 (1 / 1000)); [lra|]. simpl.
  repeat f_equal; lra.
Qed.

Example registry_defaults :
  ParamRegistry.get ParamId.BloomPreDepth ParamRegistry.ctor = 6 /\
  ParamRegistry.get ParamId.EnvReleaseMs ParamRegistry.ctor = 100 /\
  ParamRegistry.get ParamId.MasterGain_dB ParamRegistry.ctor = 0 /\
  ParamRegistry.get ParamId.kCount ParamRegistry.ctor = 0 /\
  ParamRegistry.get 4294967295%Z ParamRegistry.ctor = 0.
Proof. repeat split; reflexivity. Qed.

Example static_cast_int_wraps :
  ParamId.static_cast_int 4294967295%Z = (-1)%Z /\
  ParamId.static_cast_int 30%Z = 30%Z.
Proof. split; reflexivity. Qed.

(** The seventeenth stage trips the capacity assertion. *)
Example pipeline_capacity :
  (fix add (k : nat) (p : option (Pipeline.t nat nat)) :=
     match k with
     | O => p
     | S k' => add k' (p ≫= Pipeline.addStage (Some k'))
     end) 16%nat (Some Pipeline.ctor) ≫= Pipeline.addStage (Some 99%nat)
  = None.
Proof. reflexivity. Qed.

(** Without a model the stage passes the block through. *)
Example nam_process_passthrough :
  (NamStage.process [1; 2] 2 (NamStage.prepare 48000 2 NamStage.ctor)).2
  = [1; 2].
Proof. reflexivity. Qed.

(** [unloadModel] stages the empty model; the next block swaps it in and
    passes through. *)
Example nam_unload_then_process :
  let st := NamStage.unloadModel
              (NamStage.process [1; 2; 3; 4] 4 loaded_stage).1 in
  NamStage.hasModel st = true /\
  NamStage.hasModel (NamStage.process [5; 6] 2 st).1 = false /\
  (NamStage.process [5; 6] 2 st).2 = [5; 6].
Proof.
  cbv zeta. unfold loaded_stage, NamStage.process, NamStage.loadModel. simpl.
  destruct (Req_dec_T (Rpower 10 (0 / 20)) 1); simpl; repeat split.
Qed.

(** * Further properties *)

(** ** ParamSmoother *)

Lemma prepare_coeff_range (sampleRate smoothingMs : R) (s : ParamSmoother.t) :
  0 <= ParamSmoother.coeff_ (ParamSmoother.prepare sampleRate smoothingMs s) < 1.
Proof.
  unfold ParamSmoother.prepare.
  destruct (Rlt_dec 0 sampleRate) as [Hsr|_]; [|simpl; lra].
  destruct (Rlt_dec 0 smoothingMs) as [Hms|_]; [|simpl; lra].
  simpl. split; [left; apply exp_pos|].
  rewrite <- exp_0. apply exp_increasing.
  assert (Hpos : 0 < smoothingMs / 1000 * sampleRate) by nra.
  unfold Rdiv at 1. apply Rinv_0_lt_compat in Hpos. lra.
Qed.


(** ** GainStage *)

Lemma advance_nonneg (k : nat) (s : ParamSmoother.t) :
  0 <= ParamSmoother.coeff_ s < 1 ->
  0 <= ParamSmoother.current_ s -> 0 <= ParamSmoother.target_ s ->
  0 <= ParamSmoother.current_ (advance k s).
Proof.
  revert s; induction k as [|k IH]; intros s Hc Hcur Htgt; [exact Hcur|].
  simpl. apply IH; simpl; try assumption.
  assert (0 <= ParamSmoother.coeff_ s * ParamSmoother.current_ s)
    by (apply Rmult_le_pos; lra).
  assert (0 <= (1 - ParamSmoother.coeff_ s) * ParamSmoother.target_ s)
    by (apply Rmult_le_pos; lra).
  lra.
Qed.

Lemma std_max_floor (x : R) : GainStage.kMinLin <= std_max x GainStage.kMinLin.
Proof. rewrite std_max_Rmax. apply Rmax_r. Qed.

Lemma gain_call_inv (g : GainStage.t) (call : GainCall) :
  gain_inv g -> gain_inv (gain_call g call).
Proof.
  unfold gain_inv. intros (Hfloor & Hc & Hcur & Htgt).
  assert (Hmin : 0 < GainStage.kMinLin) by (unfold GainStage.kMinLin; lra).
  destruct call as [sr mb | buffer n | | db | x | |]; simpl.
  - pose proof (prepare_coeff_range sr GainStage.kSmoothingMs (GainStage.smoother_ g)).
    repeat split; try lra.
  - destruct (gain_process_block buffer n g) as (Ha & Hs & _).
    rewrite Ha, Hs. simpl. rewrite advance_coeff, advance_target. simpl.
    repeat split; try lra.
    apply advance_nonneg; simpl; lra.
  - repeat split; lra.
  - repeat split; try lra. apply std_max_floor.
  - repeat split; try lra. apply std_max_floor.
  - repeat split; lra.
  - repeat split; lra.
Qed.

Lemma gain_after_inv (calls : list GainCall) : gain_inv (gain_after calls).
Proof.
  unfold gain_after.
  assert (H0 : gain_inv GainStage.ctor).
  { unfold gain_inv, GainStage.kMinLin; simpl. lra. }
  revert H0. generalize GainStage.ctor.
  induction calls as [|call calls IH]; intros g Hg; [exact Hg|].
  simpl. apply IH. now apply gain_call_inv.
Qed.

Lemma log10_m3 : log10 (1 / 1000) = -3.
Proof. rewrite <- pow10_m3. apply log10_pow10. Qed.

Lemma log10_le (x y : R) : 0 < x -> x <= y -> log10 x <= log10 y.
Proof.
  intros Hx Hxy. unfold log10. pose proof ln_10_pos.
  apply Rmult_le_compat_r; [left; now apply Rinv_0_lt_compat|].
  destruct Hxy as [Hlt | ->]; [left; apply ln_increasing; lra | lra].
Qed.

(** X4. However a gain stage is used after construction, with numbers
    as arguments (a NaN handed to [setGainDb] or [setGainLinear] passes
    [std::clamp] and [std::max] unchanged and is outside this
    statement), its linear gain target is at least [1e-3]:
    [getGainLinear()] never returns less, and [getGainDb()] never
    returns less than [-60]. *)
Theorem gain_target_never_below_floor (calls : list GainCall) :
  let g := gain_after calls in
  1 / 1000 <= (GainStage.getGainLinear g).1 /\
  -60 <= (GainStage.getGainDb g).1.
Proof.
  intros g. destruct (gain_after_inv calls) as (Hfloor & _ & _ & _).
  fold g in Hfloor. unfold GainStage.kMinLin in Hfloor.
  split; [exact Hfloor|].
  simpl. unfold GainStage.linearToDb.
  destruct (Rle_dec _ 0); [lra|].
  pose proof (log10_le (1 / 1000) _ ltac:(lra) Hfloor) as Hl.
  rewrite log10_m3 in Hl. lra.
Qed.






Lemma gain_process_settled (g : GainStage.t) (buffer : list R) (numSamples : Z) (i : nat) :
  ParamSmoother.current_ (GainStage.smoother_ g)
    = Atomic.value (GainStage.targetGainLinear_ g) ->
  (GainStage.process buffer numSamples g).2 !! i
  = if (i <? Z.to_nat numSamples)%nat
    then (fun b => b * Atomic.value (GainStage.targetGainLinear_ g)) <$> buffer !! i
    else buffer !! i.
Proof.
  intros Hsettled.
  destruct (gain_process_block buffer numSamples g) as (_ & _ & Hbuf).
  rewrite Hbuf. destruct (i <? _)%nat; [|reflexivity].
  destruct (buffer !! i) as [b|]; [|reflexivity].
  unfold fmap, option_fmap, option_map. f_equal.
  rewrite next_advance, advance_current. simpl. rewrite Hsettled. lra.
Qed.

(** X9. Where the host cuts the signal into blocks makes no difference
    to a gain stage: processing consecutive blocks one by one gives,
    concatenated, what processing their concatenation as one block
    gives. *)
Theorem gain_blocks_concat (g : GainStage.t) (blocks : list (list R)) :
  concat (gain_blocks g blocks).2
  = (GainStage.process (concat blocks)
       (Z.of_nat (length (concat blocks))) g).2.
Proof.
  revert g; induction blocks as [|b rest IH]; intros g.
  - symmetry. apply nil_length_inv. now rewrite gain_process_length.
  - simpl. rewrite IH. apply gain_process_two_blocks.
Qed.

(** ** ParamRegistry *)

(** Every row of the table has its default inside its range. *)
Lemma table_rows_ordered (j : nat) :
  (j < 43)%nat ->
  let info := ParamRegistry.kParamInfo !!! j in
  ParamRegistry.minValue info <= ParamRegistry.defaultValue info
  <= ParamRegistry.maxValue info.
Proof.
  intros Hj.
  do 43 (destruct j as [|j]; [cbv zeta; table_row; lra|]).
  lia.
Qed.

Lemma resetToDefaults_values (r : ParamRegistry.t) (j : nat) :
  ParamRegistry.values_ (ParamRegistry.resetToDefaults r) !! j
  = if (j <? 43)%nat
    then (fun _ => ParamRegistry.defaultValue (ParamRegistry.kParamInfo !!! j))
           <$> ParamRegistry.values_ r !! j
    else ParamRegistry.values_ r !! j.
Proof.
  unfold ParamRegistry.resetToDefaults, for_loop.
  rewrite kNumParams_eq. change (Z.to_nat 43) with 43%nat.
  assert (Hloop : forall n i r0,
    ParamRegistry.values_
      (for_from n i
         (fun k r1 => ParamRegistry.mk
            (<[k := ParamRegistry.defaultValue (ParamRegistry.kParamInfo !!! k)]>
               (ParamRegistry.values_ r1))) r0)
    = for_from n i
        (fun k b => <[k := ParamRegistry.defaultValue (ParamRegistry.kParamInfo !!! k)]> b)
        (ParamRegistry.values_ r0)).
  { induction n as [|n IH]; intros i r0; [reflexivity|]. simpl. now rewrite IH. }
  rewrite Hloop.
  rewrite (for_from_insert
             (fun k => ParamRegistry.defaultValue (ParamRegistry.kParamInfo !!! k))).
  reflexivity.
Qed.

Lemma resetToDefaults_eq_ctor (r : ParamRegistry.t) :
  registry_wf r -> ParamRegistry.resetToDefaults r = ParamRegistry.ctor.
Proof.
  intros Hwf. unfold ParamRegistry.ctor.
  set (r0 := ParamRegistry.mk (replicate (Z.to_nat ParamRegistry.kNumParams) 0)).
  assert (Hr0 : length (ParamRegistry.values_ r0) = 43%nat) by reflexivity.
  assert (Hv : ParamRegistry.values_ (ParamRegistry.resetToDefaults r)
               = ParamRegistry.values_ (ParamRegistry.resetToDefaults r0)).
  { apply list_eq; intros j. rewrite !resetToDefaults_values.
    unfold registry_wf in Hwf. rewrite kNumParams_eq in Hwf.
    change (Z.to_nat 43) with 43%nat in Hwf.
    destruct (Nat.ltb_spec j 43) as [Hj | Hj].
    - destruct (lookup_lt_is_Some_2 (ParamRegistry.values_ r) j) as [x ->]; [lia|].
      destruct (lookup_lt_is_Some_2 (ParamRegistry.values_ r0) j) as [y ->]; [lia|].
      reflexivity.
    - rewrite !lookup_ge_None_2 by lia. reflexivity. }
  destruct (ParamRegistry.resetToDefaults r), (ParamRegistry.resetToDefaults r0).
  simpl in Hv. now rewrite Hv.
Qed.

Lemma resetToDefaults_wf (r : ParamRegistry.t) :
  registry_wf r -> registry_wf (ParamRegistry.resetToDefaults r).
Proof. intros Hwf. rewrite resetToDefaults_eq_ctor by exact Hwf. apply registry_ctor_wf. Qed.

Lemma ctor_slot (j : nat) :
  (j < 43)%nat ->
  ParamRegistry.values_ ParamRegistry.ctor !!! j
  = ParamRegistry.defaultValue (ParamRegistry.kParamInfo !!! j).
Proof.
  intros Hj. apply list_lookup_total_correct.
  unfold ParamRegistry.ctor. rewrite resetToDefaults_values.
  destruct (Nat.ltb_spec j 43); [|lia].
  set (r0 := ParamRegistry.mk (replicate (Z.to_nat ParamRegistry.kNumParams) 0)).
  assert (Hr0 : length (ParamRegistry.values_ r0) = 43%nat) by reflexivity.
  destruct (lookup_lt_is_Some_2 (ParamRegistry.values_ r0) j) as [x ->]; [lia|].
  reflexivity.
Qed.

Lemma registry_ctor_in_range : registry_in_range ParamRegistry.ctor.
Proof.
  intros j Hj. rewrite kNumParams_eq in Hj. change (Z.to_nat 43) with 43%nat in Hj.
  rewrite ctor_slot by exact Hj. now apply table_rows_ordered.
Qed.

Lemma registry_set_in_range (id : ParamId.t) (v : R) (r : ParamRegistry.t) :
  registry_wf r -> registry_in_range r ->
  registry_in_range (ParamRegistry.set id v r).
Proof.
  intros Hwf Hin j Hj. unfold ParamRegistry.set.
  destruct (_ || _)%bool eqn:Hout; [now apply Hin|]. simpl.
  apply orb_false_elim in Hout as [Hlo Hhi].
  rewrite kNumParams_eq in *. change (Z.to_nat 43) with 43%nat in Hj.
  destruct (decide (Z.to_nat (ParamId.static_cast_int id) = j)) as [<- | Hne].
  - rewrite list_lookup_total_insert_eq
      by (unfold registry_wf in Hwf; rewrite Hwf, kNumParams_eq; exact Hj).
    apply std_clamp_bounds.
    pose proof (table_rows_ordered _ Hj) as Hrow. cbv zeta in Hrow. lra.
  - rewrite list_lookup_total_insert_ne by exact Hne.
    apply Hin. rewrite kNumParams_eq. exact Hj.
Qed.

Lemma registry_after_inv (calls : list RegistryCall) :
  registry_wf (registry_after calls) /\ registry_in_range (registry_after calls).
Proof.
  unfold registry_after.
  assert (H0 : registry_wf ParamRegistry.ctor /\ registry_in_range ParamRegistry.ctor)
    by (split; [apply registry_ctor_wf | apply registry_ctor_in_range]).
  revert H0. generalize ParamRegistry.ctor.
  induction calls as [|call calls IH]; intros r Hr; [exact Hr|].
  simpl. apply IH. destruct Hr as [Hwf Hin]. destruct call as [id v|]; simpl.
  - split; [now apply registry_set_wf | now apply registry_set_in_range].
  - rewrite resetToDefaults_eq_ctor by exact Hwf.
    split; [apply registry_ctor_wf | apply registry_ctor_in_range].
Qed.

Lemma registry_get_slot (id : ParamId.t) (r : ParamRegistry.t) :
  (0 <= ParamId.static_cast_int id < 43)%Z ->
  ParamRegistry.get id r
  = ParamRegistry.values_ r !!! Z.to_nat (ParamId.static_cast_int id).
Proof.
  intros Hi. unfold ParamRegistry.get. rewrite kNumParams_eq.
  destruct (Z.ltb_spec (ParamId.static_cast_int id) 0),
    (Z.geb_spec (ParamId.static_cast_int id) 43); simpl; try lia. reflexivity.
Qed.

(** X10. Whatever sequence of [resetToDefaults] calls and of [set]
    calls with numbers as values a registry has seen since construction
    (a NaN passes [std::clamp] unchanged and is outside this statement),
    every value it hands out is within the range of its table row: for
    an [id] whose [int] value indexes the table,
    [min <= get(id) <= max]. *)
Theorem registry_values_stay_in_range (calls : list RegistryCall) (id : ParamId.t) :
  let r := registry_after calls in
  let i := ParamId.static_cast_int id in
  let info := ParamRegistry.kParamInfo !!! Z.to_nat i in
  (0 <= i < ParamId.kCount)%Z ->
  ParamRegistry.minValue info <= ParamRegistry.get id r
  <= ParamRegistry.maxValue info.
Proof.
  intros r i info Hi. unfold ParamId.kCount in Hi.
  destruct (registry_after_inv calls) as [_ Hin]. fold r in Hin.
  unfold r at 1 2. rewrite registry_get_slot by exact Hi.
  apply Hin. rewrite kNumParams_eq. fold i. lia.
Qed.

(** Three writes to the master gain, the last far out of range: what is
    read is within [[-60, 24]]. *)
Lemma registry_values_stay_in_range_witness :
  let r := registry_after
             [RgSet ParamId.MasterGain_dB 3; RgResetToDefaults;
              RgSet ParamId.MasterGain_dB (-1000)] in
  ParamRegistry.minValue (ParamRegistry.kParamInfo !!! 30%nat)
  <= ParamRegistry.get ParamId.MasterGain_dB r
  <= ParamRegistry.maxValue (ParamRegistry.kParamInfo !!! 30%nat).
Proof.
  apply (registry_values_stay_in_range
           [RgSet ParamId.MasterGain_dB 3; RgResetToDefaults;
            RgSet ParamId.MasterGain_dB (-1000)] ParamId.MasterGain_dB).
  now vm_compute.
Defined.

(** X11. [resetToDefaults()] on a registry gives the registry as
    constructed, whatever was written before: every parameter reads as
    the default of its table row, and a second reset changes nothing. *)
Theorem registry_resetToDefaults_restores (r : ParamRegistry.t) (id : ParamId.t) :
  registry_wf r ->
  let r' := ParamRegistry.resetToDefaults r in
  let i := ParamId.static_cast_int id in
  r' = ParamRegistry.ctor /\
  ParamRegistry.resetToDefaults r' = r' /\
  ((0 <= i < ParamId.kCount)%Z ->
     ParamRegistry.get id r'
     = ParamRegistry.defaultValue (ParamRegistry.kParamInfo !!! Z.to_nat i)).
Proof.
  intros Hwf r' i. unfold r'.
  rewrite resetToDefaults_eq_ctor by exact Hwf.
  split; [reflexivity|]. split.
  - apply resetToDefaults_eq_ctor, registry_ctor_wf.
  - intros Hi. unfold ParamId.kCount in Hi.
    rewrite registry_get_slot by exact Hi. apply ctor_slot. fold i. lia.
Qed.

(** After a write of 12 to the master gain, a reset brings back 0. *)
Lemma registry_resetToDefaults_restores_witness :
  ParamRegistry.get ParamId.MasterGain_dB
    (ParamRegistry.resetToDefaults
       (ParamRegistry.set ParamId.MasterGain_dB 12 ParamRegistry.ctor))
  = ParamRegistry.defaultValue (ParamRegistry.kParamInfo !!! 30%nat).
Proof.
  apply (registry_resetToDefaults_restores
           (ParamRegistry.set ParamId.MasterGain_dB 12 ParamRegistry.ctor)
           ParamId.MasterGain_dB).
  - apply registry_set_wf. reflexivity.
  - now vm_compute.
Defined.

Lemma registry_eq (r r' : ParamRegistry.t) :
  ParamRegistry.values_ r = ParamRegistry.values_ r' -> r = r'.
Proof. destruct r, r'. simpl. now intros ->. Qed.

Lemma list_insert_swap {A : Type} (l : list A) (i j : nat) (x y : A) :
  i <> j -> <[i := x]> (<[j := y]> l) = <[j := y]> (<[i := x]> l).
Proof.
  intros Hij. apply list_eq; intros k.
  rewrite !list_lookup_insert, !length_insert.
  destruct (decide (i = k /\ (i < length l)%nat)) as [[-> ?]|?],
    (decide (j = k /\ (j < length l)%nat)) as [[-> ?]|?]; congruence.
Qed.

(** X12. Parameters are independent of each other: a [set] on one [id]
    leaves what [get] returns for an [id] with a different [int] value
    untouched, and two such writes can be made in either order.  On one
    [id] the last write wins. *)
Theorem registry_parameters_independent
  (id1 id2 : ParamId.t) (v1 v2 : R) (r : ParamRegistry.t) :
  (ParamId.static_cast_int id1 <> ParamId.static_cast_int id2 ->
     ParamRegistry.get id2 (ParamRegistry.set id1 v1 r) = ParamRegistry.get id2 r /\
     ParamRegistry.set id1 v1 (ParamRegistry.set id2 v2 r)
     = ParamRegistry.set id2 v2 (ParamRegistry.set id1 v1 r)) /\
  ParamRegistry.set id1 v2 (ParamRegistry.set id1 v1 r) = ParamRegistry.set id1 v2 r.
Proof.
  unfold ParamRegistry.set, ParamRegistry.get. rewrite kNumParams_eq.
  set (i1 := ParamId.static_cast_int id1). set (i2 := ParamId.static_cast_int id2).
  split.
  - intros Hne.
    destruct (Z.ltb_spec i1 0), (Z.geb_spec i1 43), (Z.ltb_spec i2 0),
      (Z.geb_spec i2 43); simpl; try lia; try (split; reflexivity).
    split.
    + apply list_lookup_total_insert_ne. lia.
    + apply registry_eq; simpl. apply list_insert_swap. lia.
  - destruct (Z.ltb_spec i1 0), (Z.geb_spec i1 43); simpl; try reflexivity.
    apply registry_eq; simpl. apply list_insert_insert_eq.
Qed.

(** Writing the reverb mix does not move the master gain. *)
Lemma registry_parameters_independent_witness :
  ParamRegistry.get ParamId.MasterGain_dB
    (ParamRegistry.set ParamId.ReverbWet_Norm 1 ParamRegistry.ctor)
  = ParamRegistry.get ParamId.MasterGain_dB ParamRegistry.ctor.
Proof.
  apply (registry_parameters_independent
           ParamId.ReverbWet_Norm ParamId.MasterGain_dB 1 0 ParamRegistry.ctor).
  now vm_compute.
Defined.

(** X13. Reading a parameter and writing the value straight back changes
    nothing, on any registry reached from construction and for any [id]:
    a stored value is already its own clamp. *)
Theorem registry_write_back_is_noop (calls : list RegistryCall) (id : ParamId.t) :
  let r := registry_after calls in
  ParamRegistry.set id (ParamRegistry.get id r) r = r.
Proof.
  intros r. destruct (registry_after_inv calls) as [Hwf Hin]. fold r in Hwf, Hin.
  unfold ParamRegistry.set, ParamRegistry.get. rewrite kNumParams_eq.
  set (i := ParamId.static_cast_int id).
  destruct (Z.ltb_spec i 0), (Z.geb_spec i 43); simpl; try reflexivity.
  apply registry_eq; simpl.
  assert (Hi : (Z.to_nat i < Z.to_nat ParamRegistry.kNumParams)%nat)
    by (rewrite kNumParams_eq; lia).
  rewrite std_clamp_id by (apply Hin; exact Hi).
  apply list_insert_id. apply list_lookup_lookup_total_lt.
  unfold registry_wf in Hwf. rewrite Hwf. exact Hi.
Qed.

(** ** Pipeline *)

Section PipelineAssembly.

Context {StagePtr CtrlPtr : Type}.

Implicit Types (p : Pipeline.t StagePtr CtrlPtr).

Lemma add_stages_snoc (stages : list StagePtr) (stage : StagePtr) p :
  add_stages (stages ++ [stage]) p
  = add_stages stages p ≫= Pipeline.addStage (Some stage).
Proof. unfold add_stages. now rewrite foldl_app. Qed.

Lemma add_controllers_snoc (controllers : list CtrlPtr) (ctrl : CtrlPtr) p :
  add_controllers (controllers ++ [ctrl]) p
  = add_controllers controllers p ≫= Pipeline.addController (Some ctrl).
Proof. unfold add_controllers. now rewrite foldl_app. Qed.

Lemma lookup_snoc {A : Type} (l : list A) (x : A) (i : nat) :
  (l ++ [x]) !! i
  = if decide (i = length l) then Some x else l !! i.
Proof.
  destruct (decide (i = length l)) as [-> | Hne].
  - rewrite lookup_app_r by lia. now rewrite Nat.sub_diag.
  - destruct (Nat.lt_ge_cases i (length l)).
    + now rewrite lookup_app_l by lia.
    + rewrite !lookup_ge_None_2; [reflexivity | lia |].
      rewrite length_app. simpl. lia.
Qed.

(** What [add_stages] from a fresh pipeline gives, by the length of the
    list. *)
Lemma add_stages_ctor (stages : list StagePtr) :
  if (length stages <=? 16)%nat
  then exists p, add_stages stages (@Pipeline.ctor StagePtr CtrlPtr) = Some p /\
         Pipeline.numStages_ p = Z.of_nat (length stages) /\
         length (Pipeline.stages_ p) = 16%nat /\
         (forall i, Pipeline.stage_at p i = stages !! i) /\
         Pipeline.numControllers_ p = 0%Z /\
         Pipeline.controllers_ p = replicate 4 None
  else add_stages stages (@Pipeline.ctor StagePtr CtrlPtr) = None.
Proof.
  induction stages as [|stage stages IH] using rev_ind.
  - simpl. exists Pipeline.ctor. repeat split.
    intros i. unfold Pipeline.stage_at. simpl.
    do 16 (destruct i as [|i]; [reflexivity|]). reflexivity.
  - rewrite add_stages_snoc, length_app. simpl length.
    destruct (Nat.leb_spec (length stages) 16) as [Hle | Hgt].
    + destruct IH as (p & -> & Hn & Hlen & Hat & HnC & HC). simpl.
      unfold Pipeline.addStage. rewrite Hn.
      destruct (Nat.leb_spec (length stages + 1) 16) as [Hle' | Hgt'].
      * destruct (Z.ltb_spec (Z.of_nat (length stages)) Pipeline.kMaxStages)
          as [_ | Hge]; [|unfold Pipeline.kMaxStages in Hge; lia].
        eexists. split; [reflexivity|]. simpl.
        rewrite length_insert, Nat2Z.id. repeat split; try assumption; try lia.
        intros i. unfold Pipeline.stage_at in *. simpl.
        rewrite lookup_snoc, list_lookup_insert.
        destruct (decide (i = length stages)) as [-> | Hne].
        -- destruct (decide (_ /\ _)) as [_ | Hn']; [reflexivity | lia].
        -- destruct (decide (_ /\ _)) as [[? _] | _]; [lia | apply Hat].
      * destruct (Z.ltb_spec (Z.of_nat (length stages)) Pipeline.kMaxStages)
          as [Hlt | _]; [unfold Pipeline.kMaxStages in Hlt; lia | reflexivity].
    + rewrite IH. destruct (Nat.leb_spec (length stages + 1) 16); [lia | reflexivity].
Qed.

Lemma add_controllers_ctor (controllers : list CtrlPtr) :
  if (length controllers <=? 4)%nat
  then exists p, add_controllers controllers (@Pipeline.ctor StagePtr CtrlPtr) = Some p /\
         Pipeline.numControllers_ p = Z.of_nat (length controllers) /\
         length (Pipeline.controllers_ p) = 4%nat /\
         (forall c, Pipeline.controller_at p c = controllers !! c)
  else add_controllers controllers (@Pipeline.ctor StagePtr CtrlPtr) = None.
Proof.
  induction controllers as [|ctrl controllers IH] using rev_ind.
  - simpl. exists Pipeline.ctor. repeat split.
    intros c. unfold Pipeline.controller_at. simpl.
    do 4 (destruct c as [|c]; [reflexivity|]). reflexivity.
  - rewrite add_controllers_snoc, length_app. simpl length.
    destruct (Nat.leb_spec (length controllers) 4) as [Hle | Hgt].
    + destruct IH as (p & -> & Hn & Hlen & Hat). simpl.
      unfold Pipeline.addController. rewrite Hn.
      destruct (Nat.leb_spec (length controllers + 1) 4) as [Hle' | Hgt'].
      * destruct (Z.ltb_spec (Z.of_nat (length controllers)) Pipeline.kMaxControllers)
          as [_ | Hge]; [|unfold Pipeline.kMaxControllers in Hge; lia].
        eexists. split; [reflexivity|]. simpl.
        rewrite length_insert, Nat2Z.id. repeat split; try assumption; try lia.
        intros c. unfold Pipeline.controller_at in *. simpl.
        rewrite lookup_snoc, list_lookup_insert.
        destruct (decide (c = length controllers)) as [-> | Hne].
        -- destruct (decide (_ /\ _)) as [_ | Hn']; [reflexivity | lia].
        -- destruct (decide (_ /\ _)) as [[? _] | _]; [lia | apply Hat].
      * destruct (Z.ltb_spec (Z.of_nat (length controllers)) Pipeline.kMaxControllers)
          as [Hlt | _]; [unfold Pipeline.kMaxControllers in Hlt; lia | reflexivity].
    + rewrite IH.
      destruct (Nat.leb_spec (length controllers + 1) 4); [lia | reflexivity].
Qed.

(** X14. A fresh pipeline takes up to 16 stages and up to 4
    controllers, in order, and not one more: registering a list of
    stages succeeds exactly when the list has at most 16 entries, and
    then slot [i] holds the [i]-th stage of the list and [numStages()]
    is its length; likewise for controllers and 4.  A null stage or
    controller is never accepted. *)
Theorem pipeline_registration_capacity
  (stages : list StagePtr) (controllers : list CtrlPtr) p :
  (is_Some (add_stages stages (@Pipeline.ctor StagePtr CtrlPtr))
     <-> (length stages <= 16)%nat) /\
  (is_Some (add_controllers controllers (@Pipeline.ctor StagePtr CtrlPtr))
     <-> (length controllers <= 4)%nat) /\
  (forall q, add_stages stages (@Pipeline.ctor StagePtr CtrlPtr) = Some q ->
     Pipeline.numStages q = Z.of_nat (length stages) /\
     forall i, Pipeline.stage_at q i = stages !! i) /\
  (forall q, add_controllers controllers (@Pipeline.ctor StagePtr CtrlPtr) = Some q ->
     Pipeline.numControllers q = Z.of_nat (length controllers) /\
     forall c, Pipeline.controller_at q c = controllers !! c) /\
  Pipeline.addStage None p = None /\
  Pipeline.addController None p = None.
Proof.
  pose proof (add_stages_ctor stages) as HS.
  pose proof (add_controllers_ctor controllers) as HC.
  split; [|split; [|split; [|split; [|split]]]].
  - destruct (Nat.leb_spec (length stages) 16) as [Hl | Hl].
    + destruct HS as (q & -> & _). split; [intros _; lia | intros _; now eexists].
    + rewrite HS. split; [intros [q Hq]; discriminate | lia].
  - destruct (Nat.leb_spec (length controllers) 4) as [Hl | Hl].
    + destruct HC as (q & -> & _). split; [intros _; lia | intros _; now eexists].
    + rewrite HC. split; [intros [q Hq]; discriminate | lia].
  - intros q Hq. destruct (Nat.leb_spec (length stages) 16) as [Hl | Hl].
    + destruct HS as (q' & Hq' & Hn & _ & Hat & _).
      rewrite Hq in Hq'. injection Hq' as <-. split; [exact Hn | exact Hat].
    + rewrite HS in Hq. discriminate.
  - intros q Hq. destruct (Nat.leb_spec (length controllers) 4) as [Hl | Hl].
    + destruct HC as (q' & Hq' & Hn & _ & Hat).
      rewrite Hq in Hq'. injection Hq' as <-. split; [exact Hn | exact Hat].
    + rewrite HC in Hq. discriminate.
  - unfold Pipeline.addStage. destruct (_ <? _)%Z; reflexivity.
  - unfold Pipeline.addController. destruct (_ <? _)%Z; reflexivity.
Qed.

End PipelineAssembly.

(** Registering three stages on a fresh pipeline succeeds. *)
Lemma pipeline_registration_capacity_witness :
  is_Some (add_stages [1; 2; 3]%nat (@Pipeline.ctor nat nat)).
Proof.
  apply (pipeline_registration_capacity [1; 2; 3]%nat ([] : list nat) Pipeline.ctor).
  simpl. lia.
Defined.

Section PipelineLoops.

Context {StagePtr CtrlPtr World : Type}.
Context `{!ProcessorStage StagePtr World, !PipelineController CtrlPtr World}.

Implicit Types (p : Pipeline.t StagePtr CtrlPtr).

(** A loop that calls into the stage of each listed slot in turn. *)
Lemma fold_stage_slots {A : Type} p (step : StagePtr -> A -> A)
  (slots : list nat) (a : A) :
  (forall i, In i slots -> is_Some (Pipeline.stage_at p i)) ->
  foldl (fun st i =>
           st ≫= fun a => Pipeline.stage_at p i ≫= fun stage => Some (step stage a))
        (Some a) slots
  = Some (foldl (fun a stage => step stage a) a (omap (Pipeline.stage_at p) slots)).
Proof.
  revert a; induction slots as [|i slots IH]; intros a Hok; [reflexivity|].
  destruct (Hok i (or_introl eq_refl)) as [stage Hstage].
  simpl. rewrite Hstage. simpl. apply IH. intros j Hj. apply Hok. now right.
Qed.

Lemma fold_controller_slots {A : Type} p (step : CtrlPtr -> A -> A)
  (slots : list nat) (a : A) :
  (forall c, In c slots -> is_Some (Pipeline.controller_at p c)) ->
  foldl (fun st c =>
           st ≫= fun a => Pipeline.controller_at p c ≫= fun ctrl => Some (step ctrl a))
        (Some a) slots
  = Some (foldl (fun a ctrl => step ctrl a) a (omap (Pipeline.controller_at p) slots)).
Proof.
  revert a; induction slots as [|c slots IH]; intros a Hok; [reflexivity|].
  destruct (Hok c (or_introl eq_refl)) as [ctrl Hctrl].
  simpl. rewrite Hctrl. simpl. apply IH. intros j Hj. apply Hok. now right.
Qed.

Lemma wf_stage_slots p :
  Pipeline.wf p ->
  forall i, In i (seq 0 (Z.to_nat (Pipeline.numStages_ p))) ->
            is_Some (Pipeline.stage_at p i).
Proof. intros (_ & _ & _ & _ & Hst & _) i Hi. apply in_seq in Hi. apply Hst. lia. Qed.

Lemma wf_controller_slots p :
  Pipeline.wf p ->
  forall c, In c (seq 0 (Z.to_nat (Pipeline.numControllers_ p))) ->
            is_Some (Pipeline.controller_at p c).
Proof. intros (_ & _ & _ & _ & _ & Hct) c Hc. apply in_seq in Hc. apply Hct. lia. Qed.

Lemma registered_stages_length p :
  Pipeline.wf p ->
  length (registered_stages p) = Z.to_nat (Pipeline.numStages_ p).
Proof.
  intros Hwf. unfold registered_stages.
  assert (Hlen : forall l : list nat,
            (forall i, In i l -> is_Some (Pipeline.stage_at p i)) ->
            length (omap (Pipeline.stage_at p) l) = length l).
  { induction l as [|i l IH]; intros Hok; [reflexivity|].
    destruct (Hok i (or_introl eq_refl)) as [stage Hstage].
    simpl. rewrite Hstage. simpl. f_equal. apply IH. intros j Hj. apply Hok. now right. }
  rewrite Hlen by now apply wf_stage_slots. apply length_seq.
Qed.

Lemma pipeline_prepare_fold p (sampleRate : R) (maxBlockSize : Z) (w : World) :
  Pipeline.wf p ->
  Pipeline.prepare sampleRate maxBlockSize p w
  = Some (Pipeline.mk (Pipeline.stages_ p) (Pipeline.controllers_ p)
            (Pipeline.numStages_ p) (Pipeline.numControllers_ p)
            sampleRate maxBlockSize,
          foldl (fun w stage => stage_prepare stage sampleRate maxBlockSize w)
                w (registered_stages p)).
Proof.
  intros Hwf. unfold Pipeline.prepare, for_loop. cbn [Pipeline.numStages_].
  rewrite for_from_foldl.
  erewrite foldl_ext_fun;
    [ rewrite (fold_stage_slots p
                 (fun stage w => stage_prepare stage sampleRate maxBlockSize w))
        by now apply wf_stage_slots
    | intros st i; reflexivity | reflexivity ].
  reflexivity.
Qed.

Lemma pipeline_reset_fold p (w : World) :
  Pipeline.wf p ->
  Pipeline.reset p w
  = Some (foldl (fun w stage => stage_reset stage w) w (registered_stages p)).
Proof.
  intros Hwf. unfold Pipeline.reset, for_loop. rewrite for_from_foldl.
  erewrite foldl_ext_fun;
    [ rewrite (fold_stage_slots p (fun stage w => stage_reset stage w))
        by now apply wf_stage_slots
    | intros st i; reflexivity | reflexivity ].
  reflexivity.
Qed.

(** X15. On a pipeline assembled through [addStage]/[addController],
    [prepare(sampleRate, maxBlockSize)] records its two arguments,
    leaves the registrations alone and calls [prepare] with those same
    arguments on every registered stage once, in registration order;
    [reset()] calls [reset] on every registered stage once, in that
    order.  Neither reaches a controller. *)
Theorem pipeline_prepare_reset_every_stage
  p (sampleRate : R) (maxBlockSize : Z) (w : World) :
  Pipeline.wf p ->
  Pipeline.prepare sampleRate maxBlockSize p w
  = Some (Pipeline.mk (Pipeline.stages_ p) (Pipeline.controllers_ p)
            (Pipeline.numStages_ p) (Pipeline.numControllers_ p)
            sampleRate maxBlockSize,
          foldl (fun w stage => stage_prepare stage sampleRate maxBlockSize w)
                w (registered_stages p)) /\
  Pipeline.reset p w
  = Some (foldl (fun w stage => stage_reset stage w) w (registered_stages p)) /\
  length (registered_stages p) = Z.to_nat (Pipeline.numStages p).
Proof.
  intros Hwf. split; [|split].
  - now apply pipeline_prepare_fold.
  - now apply pipeline_reset_fold.
  - now apply registered_stages_length.
Qed.

(** The stage loop of [process] when no controller is registered. *)
Lemma process_without_controllers p (buffer : list R) (numSamples : Z) (w : World) :
  Pipeline.wf p -> Pipeline.numControllers_ p = 0%Z ->
  Pipeline.process buffer numSamples p w
  = Some (foldl (fun st stage => stage_process stage st.2 numSamples st.1)
                (w, buffer) (registered_stages p)).
Proof.
  intros Hwf HC. unfold Pipeline.process, for_loop. rewrite HC. simpl for_from at 2.
  rewrite for_from_foldl.
  erewrite foldl_ext_fun;
    [ rewrite (fold_stage_slots p
                 (fun stage st => stage_process stage st.2 numSamples st.1))
        by now apply wf_stage_slots
    | | reflexivity ].
  - reflexivity.
  - intros [[w' b']|] i; simpl; [|reflexivity].
    destruct (Pipeline.stage_at p i); reflexivity.
Qed.

(** X16. With no controller registered, [process] is the chain of its
    stages: each registered stage, in registration order, processes the
    buffer the previous one left.  With no stage registered, the buffer
    comes back as it went in, whatever the controllers'
    [preProcess] do. *)
Theorem pipeline_process_is_stage_chain
  p (buffer : list R) (numSamples : Z) (w : World) :
  Pipeline.wf p ->
  (Pipeline.numControllers p = 0%Z ->
     Pipeline.process buffer numSamples p w
     = Some (foldl (fun st stage => stage_process stage st.2 numSamples st.1)
                   (w, buffer) (registered_stages p))) /\
  (Pipeline.numStages p = 0%Z ->
     Pipeline.process buffer numSamples p w
     = Some (foldl (fun w ctrl => ctrl_preProcess ctrl buffer numSamples w)
                   w (registered_controllers p),
             buffer)).
Proof.
  intros Hwf. split.
  - now apply process_without_controllers.
  - unfold Pipeline.numStages. intros HS.
    unfold Pipeline.process, for_loop. rewrite HS. simpl for_from at 1.
    rewrite for_from_foldl.
    assert (Hpair : forall (slots : list nat) (w0 : World),
      (forall c, In c slots -> is_Some (Pipeline.controller_at p c)) ->
      foldl (fun st c =>
               '(w1, buffer1) ← st;
               ctrl ← Pipeline.controller_at p c;
               Some (ctrl_preProcess ctrl buffer1 numSamples w1, buffer1))
            (Some (w0, buffer)) slots
      = Some (foldl (fun w1 ctrl => ctrl_preProcess ctrl buffer numSamples w1)
                    w0 (omap (Pipeline.controller_at p) slots), buffer)).
    { induction slots as [|c slots IH]; intros w0 Hok; [reflexivity|].
      destruct (Hok c (or_introl eq_refl)) as [ctrl Hctrl].
      simpl. rewrite Hctrl. simpl. apply IH. intros j Hj. apply Hok. now right. }
    apply Hpair. now apply wf_controller_slots.
Qed.

End PipelineLoops.

(** The empty pipeline hands the buffer back, and a prepared recording
    pipeline has had each stage prepared once. *)
Lemma pipeline_process_is_stage_chain_witness :
  Pipeline.process [1; 2] 2 (@Pipeline.ctor nat nat) ([] : list Event)
  = Some ([], [1; 2]).
Proof.
  apply (pipeline_process_is_stage_chain
           (@Pipeline.ctor nat nat) [1; 2] 2 ([] : list Event)).
  - apply ctor_wf.
  - reflexivity.
Defined.

Lemma pipeline_prepare_reset_every_stage_witness :
  exists p,
    recording_pipeline = Some p /\
    Pipeline.reset p [] = Some [EvReset 10; EvReset 11].
Proof.
  eexists. split; [reflexivity|].
  match goal with
  | |- Pipeline.reset ?p _ = _ =>
      destruct (pipeline_prepare_reset_every_stage p 48000 128 ([] : list Event))
        as (_ & Hreset & _); [apply recording_pipeline_wf; reflexivity|]
  end.
  rewrite Hreset. reflexivity.
Defined.

(** ** NamStage *)

Section NamStageMore.

Context {Model : Type} `{!NeuralModel Model}.

Implicit Types (st : NamStage.t Model).

(** The fields [process] rewrites are the active model and the scratch
    buffer, once the pending check has run. *)
Lemma nam_process_fields st (buffer : list R) (numSamples : Z) :
  let st1 := if NamStage.modelPending_ st
             then NamStage.applyPendingModel st else st in
  let st' := (NamStage.process buffer numSamples st).1 in
  NamStage.currentModelPath_ st' = NamStage.currentModelPath_ st1 /\
  NamStage.pendingModel_ st' = NamStage.pendingModel_ st1 /\
  NamStage.pendingModelPath_ st' = NamStage.pendingModelPath_ st1 /\
  NamStage.modelPending_ st' = NamStage.modelPending_ st1 /\
  NamStage.maxBlockSize_ st' = NamStage.maxBlockSize_ st1 /\
  NamStage.sampleRate_ st' = NamStage.sampleRate_ st1 /\
  NamStage.inputGainLinear_ st' = NamStage.inputGainLinear_ st1 /\
  NamStage.outputGainLinear_ st' = NamStage.outputGainLinear_ st1 /\
  NamStage.hasModel st' = NamStage.hasModel st1.
Proof.
  cbv zeta. unfold NamStage.process, NamStage.hasModel.
  destruct (NamStage.model_ (if NamStage.modelPending_ st
                             then NamStage.applyPendingModel st else st)) eqn:Hm.
  - destruct (Process _ _). simpl. repeat split.
  - simpl. rewrite ?Hm. repeat split.
Qed.

Lemma applyPendingModel_fields st :
  let st1 := NamStage.applyPendingModel st in
  NamStage.model_ st1 = NamStage.pendingModel_ st /\
  NamStage.currentModelPath_ st1 = NamStage.pendingModelPath_ st /\
  NamStage.pendingModel_ st1 = None /\
  NamStage.pendingModelPath_ st1 = EmptyString /\
  NamStage.modelPending_ st1 = false /\
  NamStage.maxBlockSize_ st1 = NamStage.maxBlockSize_ st /\
  NamStage.outputBuffer_ st1 = NamStage.outputBuffer_ st /\
  0 < NamStage.inputGainLinear_ st1 /\
  0 < NamStage.outputGainLinear_ st1 /\
  (NamStage.pendingModel_ st = None ->
     NamStage.inputGainLinear_ st1 = 1 /\ NamStage.outputGainLinear_ st1 = 1).
Proof.
  cbv zeta. unfold NamStage.applyPendingModel, NamStage.updateCalibration. simpl.
  destruct (NamStage.pendingModel_ st); simpl; repeat split;
    try apply pow10_pos; try lra; discriminate.
Qed.




(** X18. When [CreateFromFile(path)] yields a model, [loadModel(path)]
    returns [true] and only stages it: the active model, [hasModel()],
    [modelPath()] and the gains are as before, the pending slot holds the
    new model (with the block size told to it if [prepare] has set one)
    and the flag is up.  The next [process] makes it active:
    [hasModel()] is [true], [modelPath()] is [path], the flag is down and
    the pending slot empty. *)
Theorem nam_loadModel_success_stages_then_swaps
  st (path : string) (raw : Model) (buffer : list R) (numSamples : Z) :
  CreateFromFile path = Created raw ->
  let r := NamStage.loadModel path st in
  let st' := (NamStage.process buffer numSamples r.2).1 in
  r.1 = true /\
  NamStage.model_ r.2 = NamStage.model_ st /\
  NamStage.hasModel r.2 = NamStage.hasModel st /\
  NamStage.modelPath r.2 = NamStage.modelPath st /\
  NamStage.inputGainLinear_ r.2 = NamStage.inputGainLinear_ st /\
  NamStage.outputGainLinear_ r.2 = NamStage.outputGainLinear_ st /\
  NamStage.modelPending_ r.2 = true /\
  NamStage.pendingModel_ r.2
    = Some (if (0 <? NamStage.maxBlockSize_ st)%Z
            then SetMaxAudioBufferSize (NamStage.maxBlockSize_ st) raw
            else raw) /\
  NamStage.hasModel st' = true /\
  NamStage.modelPath st' = path /\
  NamStage.modelPending_ st' = false /\
  NamStage.pendingModel_ st' = None.
Proof.
  intros Hcreate. cbv zeta.
  unfold NamStage.loadModel. rewrite Hcreate. cbn [fst snd].
  split; [reflexivity|]. split; [reflexivity|]. split; [reflexivity|].
  split; [reflexivity|]. split; [reflexivity|]. split; [reflexivity|].
  split; [reflexivity|]. split; [reflexivity|].
  unfold NamStage.process, NamStage.applyPendingModel, NamStage.updateCalibration.
  cbn [NamStage.modelPending_ NamStage.model_ NamStage.pendingModel_
       NamStage.pendingModelPath_ NamStage.currentModelPath_].
  destruct (Process _ _). repeat split.
Qed.

Lemma nam_process_no_model st (buffer : list R) (numSamples : Z) :
  NamStage.modelPending_ st = false -> NamStage.model_ st = None ->
  NamStage.process buffer numSamples st = (st, buffer).
Proof.
  intros Hflag Hm. unfold NamStage.process. rewrite Hflag, Hm. reflexivity.
Qed.

Lemma nam_process_swap_empty st (buffer : list R) (numSamples : Z) :
  NamStage.modelPending_ st = true -> NamStage.pendingModel_ st = None ->
  NamStage.process buffer numSamples st
  = (NamStage.mk None (NamStage.pendingModelPath_ st) None EmptyString false
       (NamStage.outputBuffer_ st) (NamStage.maxBlockSize_ st)
       (NamStage.sampleRate_ st) 1 1,
     buffer).
Proof.
  intros Hflag Hp.
  unfold NamStage.process, NamStage.applyPendingModel, NamStage.updateCalibration.
  rewrite Hflag. cbn [NamStage.model_ NamStage.pendingModel_]. rewrite Hp.
  reflexivity.
Qed.

Lemma nam_process_after_unload st (buffer : list R) (numSamples : Z) :
  NamStage.process buffer numSamples (NamStage.unloadModel st)
  = (NamStage.mk None EmptyString None EmptyString false
       (NamStage.outputBuffer_ st) (NamStage.maxBlockSize_ st)
       (NamStage.sampleRate_ st) 1 1,
     buffer).
Proof. reflexivity. Qed.

(** X19. [unloadModel()] only stages the empty model: until the next
    block the stage reports what it reported before.  The next
    [process] hands its buffer back untouched and leaves a stage with
    no model, an empty path and unit gains, and so does every [process]
    after it. *)
Theorem nam_unloadModel_then_passthrough
  st (buffer buffer' : list R) (numSamples numSamples' : Z) :
  let st0 := NamStage.unloadModel st in
  let r := NamStage.process buffer numSamples st0 in
  NamStage.hasModel st0 = NamStage.hasModel st /\
  NamStage.modelPath st0 = NamStage.modelPath st /\
  r.2 = buffer /\
  NamStage.hasModel r.1 = false /\
  NamStage.modelPath r.1 = EmptyString /\
  NamStage.inputGainLinear_ r.1 = 1 /\
  NamStage.outputGainLinear_ r.1 = 1 /\
  NamStage.process buffer' numSamples' r.1 = (r.1, buffer').
Proof.
  cbv zeta. rewrite nam_process_after_unload. cbn [fst snd].
  split; [reflexivity|]. split; [reflexivity|]. split; [reflexivity|].
  split; [reflexivity|]. split; [reflexivity|]. split; [reflexivity|].
  split; [reflexivity|]. now apply nam_process_no_model.
Qed.


(** X21. Once a block has run, the blocks after it do not swap again
    until a new request is made: the path, [hasModel()], the gains and
    the lowered flag are the same after the second block as after the
    first. *)
Theorem nam_swap_happens_once
  st (buffer buffer' : list R) (numSamples numSamples' : Z) :
  let st1 := (NamStage.process buffer numSamples st).1 in
  let st2 := (NamStage.process buffer' numSamples' st1).1 in
  NamStage.modelPending_ st1 = false /\
  NamStage.modelPending_ st2 = false /\
  NamStage.modelPath st2 = NamStage.modelPath st1 /\
  NamStage.hasModel st2 = NamStage.hasModel st1 /\
  NamStage.inputGainLinear_ st2 = NamStage.inputGainLinear_ st1 /\
  NamStage.outputGainLinear_ st2 = NamStage.outputGainLinear_ st1 /\
  NamStage.pendingModel_ st2 = NamStage.pendingModel_ st1.
Proof.
  intros st1 st2.
  assert (Hflag : NamStage.modelPending_ st1 = false).
  { destruct (nam_process_fields st buffer numSamples) as (_ & _ & _ & Hpf & _).
    cbv zeta in Hpf. fold st1 in Hpf. rewrite Hpf.
    destruct (NamStage.modelPending_ st) eqn:Hp; [|exact Hp].
    apply (applyPendingModel_fields st). }
  destruct (nam_process_fields st1 buffer' numSamples')
    as (Hp & Hpm & _ & Hpf & _ & _ & Hig & Hog & Hhas).
  cbv zeta in Hp, Hpm, Hpf, Hig, Hog, Hhas.
  fold st2 in Hp, Hpm, Hpf, Hig, Hog, Hhas.
  rewrite Hflag in Hp, Hpm, Hpf, Hig, Hog, Hhas.
  unfold NamStage.modelPath. repeat split; try assumption. congruence.
Qed.

(** The stage before and after a call that does not reach the model. *)
Lemma nam_call_no_model st (call : NamCall) :
  (forall path, call = NmLoadModel path ->
     CreateFromFile path = Throws \/ CreateFromFile path = Null) ->
  NamStage.model_ st = None /\ NamStage.pendingModel_ st = None ->
  NamStage.model_ (nam_call st call) = None /\
  NamStage.pendingModel_ (nam_call st call) = None.
Proof.
  intros Hfail [Hm Hp]. destruct call as [sr mb | buffer n | | path |]; simpl.
  - now rewrite Hm.
  - destruct (NamStage.modelPending_ st) eqn:Hflag.
    + rewrite nam_process_swap_empty by assumption. now split.
    + rewrite nam_process_no_model by assumption. now split.
  - now split.
  - unfold NamStage.loadModel.
    destruct (Hfail path eq_refl) as [-> | ->]; now split.
  - now split.
Qed.

(** X22. A stage on which no load has ever succeeded is a wire: after
    any sequence of [prepare], [reset], [process], [unloadModel] and
    failing [loadModel] calls, [hasModel()] is false and [process]
    returns every buffer exactly as it got it. *)
Theorem nam_without_model_is_passthrough
  (calls : list NamCall) (buffer : list R) (numSamples : Z) :
  no_load_succeeds calls ->
  let st := nam_after calls in
  NamStage.hasModel st = false /\
  (NamStage.process buffer numSamples st).2 = buffer /\
  NamStage.hasModel (NamStage.process buffer numSamples st).1 = false.
Proof.
  intros Hfail st.
  assert (Hinv : NamStage.model_ st = None /\ NamStage.pendingModel_ st = None).
  { unfold st, nam_after.
    assert (H0 : NamStage.model_ (@NamStage.ctor Model) = None /\
                 NamStage.pendingModel_ (@NamStage.ctor Model) = None)
      by (split; reflexivity).
    revert H0 Hfail. generalize (@NamStage.ctor Model).
    induction calls as [|call calls IH]; intros s Hs Hfail; [exact Hs|].
    simpl. apply IH.
    - apply nam_call_no_model; [|exact Hs].
      intros path ->. apply Hfail. now left.
    - intros path Hin. apply Hfail. now right. }
  destruct (nam_call_no_model st (NmProcess buffer numSamples)) as [Hm' _];
    [discriminate | exact Hinv|]. simpl in Hm'.
  destruct Hinv as [Hm Hp].
  split; [unfold NamStage.hasModel; now rewrite Hm|].
  split; [|unfold NamStage.hasModel; now rewrite Hm'].
  destruct (NamStage.modelPending_ st) eqn:Hflag.
  - now rewrite nam_process_swap_empty.
  - now rewrite nam_process_no_model.
Qed.

Lemma memcpy_length (dst src : list R) (n : nat) :
  (n <= length dst)%nat -> (n <= length src)%nat ->
  length (memcpy dst src n) = length dst.
Proof.
  intros Hd Hs. unfold memcpy. rewrite length_app, length_take, length_drop. lia.
Qed.

Lemma scale_loop_length (g : R) (n i : nat) (buffer : list R) :
  length (for_from n i (fun k b => alter (fun x => x * g) k b) buffer)
  = length buffer.
Proof.
  revert i buffer; induction n as [|n IH]; intros i buffer; [reflexivity|].
  simpl. rewrite IH. apply length_alter.
Qed.

Lemma copy_loop_length (h : nat -> R) (n i : nat) (buffer : list R) :
  length (for_from n i (fun k b => <[k := h k]> b) buffer) = length buffer.
Proof.
  revert i buffer; induction n as [|n IH]; intros i buffer; [reflexivity|].
  simpl. rewrite IH. apply length_insert.
Qed.

(** X23. [prepare(sampleRate, maxBlockSize)] gives the scratch buffer
    [maxBlockSize] samples.  A [process] of a block that fits the buffer
    and the scratch buffer returns a buffer of the same length and
    leaves the scratch buffer at its size and the recorded block size
    and sample rate as they were: nothing is resized on the audio
    path. *)
Theorem nam_process_keeps_sizes
  st (sampleRate : R) (maxBlockSize : Z) (buffer : list R) (numSamples : Z) :
  let n := Z.to_nat numSamples in
  (n <= length buffer)%nat ->
  (n <= length (NamStage.outputBuffer_ st))%nat ->
  let r := NamStage.process buffer numSamples st in
  length r.2 = length buffer /\
  length (NamStage.outputBuffer_ r.1) = length (NamStage.outputBuffer_ st) /\
  NamStage.maxBlockSize_ r.1 = NamStage.maxBlockSize_ st /\
  NamStage.sampleRate_ r.1 = NamStage.sampleRate_ st /\
  length (NamStage.outputBuffer_ (NamStage.prepare sampleRate maxBlockSize st))
    = Z.to_nat maxBlockSize /\
  NamStage.maxBlockSize_ (NamStage.prepare sampleRate maxBlockSize st)
    = maxBlockSize.
Proof.
  intros n Hn Ho r.
  assert (Hprep : length (NamStage.outputBuffer_
                            (NamStage.prepare sampleRate maxBlockSize st))
                  = Z.to_nat maxBlockSize)
    by (simpl; apply length_replicate).
  cut (length r.2 = length buffer /\
       length (NamStage.outputBuffer_ r.1) = length (NamStage.outputBuffer_ st) /\
       NamStage.maxBlockSize_ r.1 = NamStage.maxBlockSize_ st /\
       NamStage.sampleRate_ r.1 = NamStage.sampleRate_ st).
  { intros (H1 & H2 & H3 & H4). repeat split; assumption. }
  unfold r, NamStage.process.
  set (st1 := if NamStage.modelPending_ st
              then NamStage.applyPendingModel st else st).
  assert (Hsame : NamStage.outputBuffer_ st1 = NamStage.outputBuffer_ st /\
                  NamStage.maxBlockSize_ st1 = NamStage.maxBlockSize_ st /\
                  NamStage.sampleRate_ st1 = NamStage.sampleRate_ st).
  { unfold st1. destruct (NamStage.modelPending_ st); [|repeat split].
    unfold NamStage.applyPendingModel, NamStage.updateCalibration. simpl.
    destruct (NamStage.pendingModel_ st); repeat split. }
  destruct Hsame as (Hob & Hmb & Hsr).
  destruct (NamStage.model_ st1) as [m|];
    [|cbn [fst snd]; rewrite Hob, Hmb, Hsr; repeat split].
  fold n.
  set (scaled := if Req_dec_T (NamStage.inputGainLinear_ st1) 1 then buffer
                 else for_loop numSamples _ buffer).
  assert (Hscaled : length scaled = length buffer).
  { unfold scaled. destruct (Req_dec_T _ 1); [reflexivity|].
    apply scale_loop_length. }
  pose proof (Process_length m (take n scaled)) as Hout.
  destruct (Process m (take n scaled)) as [m' out]. simpl in Hout.
  rewrite length_take in Hout.
  assert (Hmem : length (memcpy (NamStage.outputBuffer_ st1) out n)
                 = length (NamStage.outputBuffer_ st)).
  { rewrite memcpy_length by (rewrite ?Hob; lia). now rewrite Hob. }
  cbn [fst snd NamStage.outputBuffer_ NamStage.maxBlockSize_ NamStage.sampleRate_].
  split; [|repeat split; assumption].
  destruct (Req_dec_T (NamStage.outputGainLinear_ st1) 1).
  - rewrite memcpy_length by lia. exact Hscaled.
  - unfold for_loop.
    rewrite (copy_loop_length
               (fun k => (memcpy (NamStage.outputBuffer_ st1) out n !!! k)
                         * NamStage.outputGainLinear_ st1)).
    exact Hscaled.
Qed.

End NamStageMore.


(** Loading "amp.nam" into a prepared stage and running one block makes
    it the active model. *)
Lemma nam_loadModel_success_stages_then_swaps_witness :
  NamStage.modelPath
    (NamStage.process [1; 2; 3; 4] 4
       (NamStage.loadModel "amp.nam" (NamStage.prepare 48000 4 NamStage.ctor)).2).1
  = "amp.nam"%string.
Proof.
  apply (nam_loadModel_success_stages_then_swaps
           (NamStage.prepare 48000 4 NamStage.ctor) "amp.nam" 2 [1; 2; 3; 4] 4).
  reflexivity.
Defined.


(** After two failed loads the stage still passes audio through. *)
Lemma nam_without_model_is_passthrough_witness :
  (NamStage.process [1; 2; 3] 3
     (nam_after (Model := R)
        [NmPrepare 48000 4; NmLoadModel "missing.nam"; NmLoadModel "corrupt.nam"])).2
  = [1; 2; 3].
Proof.
  apply (nam_without_model_is_passthrough (Model := R)
           [NmPrepare 48000 4; NmLoadModel "missing.nam"; NmLoadModel "corrupt.nam"]
           [1; 2; 3] 3).
  intros path Hin. simpl in Hin.
  destruct Hin as [H | [H | [H | []]]]; try discriminate;
    injection H as <-; [right | left]; reflexivity.
Defined.

(** A block of four through the loaded stage comes back four long. *)
Lemma nam_process_keeps_sizes_witness :
  length (NamStage.process [1; 2; 3; 4] 4 loaded_stage).2 = 4%nat.
Proof.
  apply (nam_process_keeps_sizes loaded_stage 48000 4 [1; 2; 3; 4] 4);
    simpl; lia.
Defined.

(** ** Pipelines of gain stages *)

Lemma omap_lookup_seq {A : Type} (l : list A) (f : nat -> option A) :
  (forall i, (i < length l)%nat -> f i = l !! i) ->
  omap f (seq 0 (length l)) = l.
Proof.
  revert f; induction l as [|x l IH] using rev_ind; intros f Hf; [reflexivity|].
  rewrite length_app. simpl length. rewrite Nat.add_1_r, seq_S, omap_app.
  rewrite IH.
  - simpl. rewrite Hf by (rewrite length_app; simpl; lia).
    rewrite lookup_app_r by lia. now rewrite Nat.sub_diag.
  - intros i Hi. rewrite Hf by (rewrite length_app; simpl; lia).
    now rewrite lookup_app_l by lia.
Qed.

Lemma registered_stages_add_stages {StagePtr CtrlPtr : Type}
  (stages : list StagePtr) (p : Pipeline.t StagePtr CtrlPtr) :
  add_stages stages (@Pipeline.ctor StagePtr CtrlPtr) = Some p ->
  registered_stages p = stages /\
  Pipeline.numControllers_ p = 0%Z /\
  Pipeline.wf p.
Proof.
  intros Hp. pose proof (add_stages_ctor (CtrlPtr := CtrlPtr) stages) as H.
  destruct (Nat.leb_spec (length stages) 16) as [Hle | Hgt];
    [|rewrite H in Hp; discriminate].
  destruct H as (q & Hq & Hn & Hlen & Hat & HnC & HC).
  rewrite Hp in Hq. injection Hq as <-.
  split; [|split; [exact HnC|]].
  - unfold registered_stages. rewrite Hn, Nat2Z.id.
    apply omap_lookup_seq. intros i _. apply Hat.
  - unfold Pipeline.wf. rewrite Hn, HnC, Hlen, HC.
    unfold Pipeline.kMaxStages, Pipeline.kMaxControllers.
    split; [lia|]. split; [lia|]. split; [reflexivity|]. split; [reflexivity|].
    split.
    + intros s Hs. rewrite Hat. apply lookup_lt_is_Some_2. lia.
    + intros c Hc. simpl in Hc. lia.
Qed.

Lemma foldl_alter_seq {A : Type} (f : A -> A) (n : nat) (l : list A) (i : nat) :
  foldl (fun w j => alter f j w) l (seq 0 n) !! i
  = if (i <? n)%nat then f <$> l !! i else l !! i.
Proof.
  induction n as [|n IH].
  - reflexivity.
  - rewrite seq_S, foldl_app. simpl.
    destruct (decide (i = n)) as [-> | Hne].
    + rewrite list_lookup_alter_eq, IH.
      destruct (Nat.ltb_spec n n), (Nat.ltb_spec n (S n)); try lia. reflexivity.
    + rewrite list_lookup_alter_ne by lia. rewrite IH.
      destruct (Nat.ltb_spec i n), (Nat.ltb_spec i (S n)); try lia; reflexivity.
Qed.

Lemma foldl_alter_all {A : Type} (f : A -> A) (l : list A) :
  foldl (fun w j => alter f j w) l (seq 0 (length l)) = f <$> l.
Proof.
  apply list_eq; intros i. rewrite foldl_alter_seq, list_lookup_fmap.
  destruct (Nat.ltb_spec i (length l)); [reflexivity|].
  now rewrite lookup_ge_None_2 by lia.
Qed.

(** A settled stage scales the block by its target and stays settled. *)
Lemma gain_process_settled_block (g : GainStage.t) (buffer : list R) (numSamples : Z) :
  settled g ->
  let r := GainStage.process buffer numSamples g in
  let T := Atomic.value (GainStage.targetGainLinear_ g) in
  r.2 = ((fun x => x * T) <$> take (Z.to_nat numSamples) buffer)
        ++ drop (Z.to_nat numSamples) buffer /\
  settled r.1 /\
  Atomic.value (GainStage.targetGainLinear_ r.1) = T.
Proof.
  intros Hs r T.
  destruct (gain_process_block buffer numSamples g) as (Ha & Hsm & _).
  fold r in Ha, Hsm. split; [|split].
  - apply list_eq; intros i. unfold r. rewrite gain_process_settled by exact Hs.
    fold T. destruct (Nat.ltb_spec i (Z.to_nat numSamples)) as [Hi | Hi].
    + destruct (Nat.lt_ge_cases i (length buffer)) as [Hlt | Hge].
      * rewrite lookup_app_l by (rewrite length_fmap, length_take; lia).
        now rewrite list_lookup_fmap, lookup_take_lt by lia.
      * rewrite !lookup_ge_None_2; [reflexivity | | lia].
        rewrite length_app, length_fmap, length_take, length_drop. lia.
    + destruct (Nat.lt_ge_cases i (length buffer)) as [Hlt | Hge].
      * rewrite lookup_app_r by (rewrite length_fmap, length_take; lia).
        rewrite lookup_drop, length_fmap, length_take. f_equal. lia.
      * rewrite !lookup_ge_None_2; [reflexivity | | lia].
        rewrite length_app, length_fmap, length_take, length_drop. lia.
  - unfold settled. rewrite Ha, Hsm. simpl.
    rewrite advance_current. simpl. unfold settled in Hs. rewrite Hs. fold T. lra.
  - rewrite Ha. reflexivity.
Qed.

Lemma scale_scale (a b : R) (n : nat) (buffer : list R) :
  ((fun x => x * b) <$> take n (((fun x => x * a) <$> take n buffer) ++ drop n buffer))
  ++ drop n (((fun x => x * a) <$> take n buffer) ++ drop n buffer)
  = ((fun x => x * (a * b)) <$> take n buffer) ++ drop n buffer.
Proof.
  assert (Hlen : length ((fun x => x * a) <$> take n buffer) = (n `min` length buffer)%nat)
    by now rewrite length_fmap, length_take.
  destruct (Nat.le_gt_cases n (length buffer)) as [Hle | Hgt].
  - rewrite take_app_length', drop_app_length' by lia.
    f_equal. rewrite <- list_fmap_compose. apply list_fmap_ext.
    intros i x _. simpl. lra.
  - rewrite !(take_ge buffer), !(drop_ge buffer) by lia.
    rewrite !app_nil_r, take_ge, drop_ge by (rewrite length_fmap; lia).
    rewrite app_nil_r, <- list_fmap_compose. apply list_fmap_ext.
    intros i x _. simpl. lra.
Qed.

Lemma scale_one (n : nat) (buffer : list R) :
  ((fun x => x * 1) <$> take n buffer) ++ drop n buffer = buffer.
Proof. now rewrite fmap_mult_1, take_drop. Qed.

(** The stage loop over a store of settled gain stages. *)
Lemma gain_store_chain (stages : list nat) (store : list GainStage.t)
  (buffer : list R) (numSamples : Z) :
  Forall settled store ->
  (forall j, In j stages -> (j < length store)%nat) ->
  let factor :=
    foldl (fun acc j => acc * Atomic.value (GainStage.targetGainLinear_ (store !!! j)))
          1 stages in
  let r := foldl (fun st stage => stage_process stage st.2 numSamples st.1)
                 (store, buffer) stages in
  r.2 = ((fun x => x * factor) <$> take (Z.to_nat numSamples) buffer)
        ++ drop (Z.to_nat numSamples) buffer /\
  Forall settled r.1 /\
  (fun g => Atomic.value (GainStage.targetGainLinear_ g)) <$> r.1
  = (fun g => Atomic.value (GainStage.targetGainLinear_ g)) <$> store.
Proof.
  intros Hset Hok.
  cut (forall (f0 : R) (store0 : list GainStage.t) (buffer0 : list R),
         Forall settled store0 ->
         (fun g => Atomic.value (GainStage.targetGainLinear_ g)) <$> store0
         = (fun g => Atomic.value (GainStage.targetGainLinear_ g)) <$> store ->
         buffer0 = ((fun x => x * f0) <$> take (Z.to_nat numSamples) buffer)
                   ++ drop (Z.to_nat numSamples) buffer ->
         let r := foldl (fun st stage => stage_process stage st.2 numSamples st.1)
                        (store0, buffer0) stages in
         r.2 = ((fun x => x *
                   foldl (fun acc j =>
                            acc * Atomic.value (GainStage.targetGainLinear_ (store !!! j)))
                         f0 stages)
                <$> take (Z.to_nat numSamples) buffer)
               ++ drop (Z.to_nat numSamples) buffer /\
         Forall settled r.1 /\
         (fun g => Atomic.value (GainStage.targetGainLinear_ g)) <$> r.1
         = (fun g => Atomic.value (GainStage.targetGainLinear_ g)) <$> store).
  { intros H. apply (H 1 store buffer Hset eq_refl). now rewrite scale_one. }
  induction stages as [|j stages IH]; intros f0 store0 buffer0 Hset0 Htg Hbuf.
  - simpl. repeat split; assumption.
  - simpl foldl.
    assert (Hlen : length store0 = length store).
    { apply (f_equal length) in Htg. now rewrite !length_fmap in Htg. }
    destruct (lookup_lt_is_Some_2 store0 j) as [g Hg];
      [rewrite Hlen; apply Hok; now left|].
    assert (Hgs : settled g) by (eapply Forall_lookup_1; eassumption).
    assert (HT : Atomic.value (GainStage.targetGainLinear_ g)
                 = Atomic.value (GainStage.targetGainLinear_ (store !!! j))).
    { apply (f_equal (fun l => l !! j)) in Htg.
      rewrite !list_lookup_fmap, Hg in Htg. simpl in Htg.
      destruct (lookup_lt_is_Some_2 store j) as [g0 Hg0]; [apply Hok; now left|].
      rewrite Hg0 in Htg. simpl in Htg. injection Htg as Htg.
      now rewrite (list_lookup_total_correct _ _ _ Hg0). }
    destruct (gain_process_settled_block g buffer0 numSamples Hgs) as (Hb & Hs' & Hv).
    cbv zeta in Hb, Hs', Hv.
    rewrite Hg. apply IH.
    + intros k Hk. apply Hok. now right.
    + now apply Forall_insert.
    + rewrite list_fmap_insert, Hv, <- Htg. apply list_insert_id.
      now rewrite list_lookup_fmap, Hg.
    + rewrite Hb, Hbuf, HT. apply scale_scale.
Qed.

Lemma prepare_after_set_settled (g sampleRate : R) (maxBlockSize : Z) :
  let stage := GainStage.prepare sampleRate maxBlockSize
                 (GainStage.setGainDb g GainStage.ctor) in
  settled stage /\
  Atomic.value (GainStage.targetGainLinear_ stage) = linear_of_db g.
Proof. split; reflexivity. Qed.

(** What the test set-up builds. *)
Lemma gain_chain_setup_spec (gains : list R) (sampleRate : R) (maxBlockSize : Z) :
  (length gains <= 16)%nat ->
  exists p store,
    gain_chain_setup gains sampleRate maxBlockSize = Some (p, store) /\
    Pipeline.wf p /\ Pipeline.numControllers_ p = 0%Z /\
    registered_stages p = seq 0 (length gains) /\
    Forall settled store /\
    (fun g => Atomic.value (GainStage.targetGainLinear_ g)) <$> store
    = linear_of_db <$> gains.
Proof.
  intros Hlen. unfold gain_chain_setup.
  pose proof (add_stages_ctor (CtrlPtr := Empty_set) (seq 0 (length gains))) as Hadd.
  rewrite length_seq in Hadd.
  destruct (Nat.leb_spec (length gains) 16) as [_ | Hgt]; [|lia].
  destruct Hadd as (p & Hp & _).
  destruct (registered_stages_add_stages _ _ Hp) as (Hreg & HnC & Hwf).
  rewrite Hp. cbn [mbind option_bind].
  rewrite (pipeline_prepare_fold p sampleRate maxBlockSize _ Hwf).
  eexists _, _. split; [reflexivity|].
  assert (Hstore :
    foldl (fun w stage => stage_prepare stage sampleRate maxBlockSize w)
          ((fun g => GainStage.setGainDb g GainStage.ctor) <$> gains)
          (registered_stages p)
    = (fun g => GainStage.prepare sampleRate maxBlockSize
                  (GainStage.setGainDb g GainStage.ctor)) <$> gains).
  { rewrite Hreg.
    rewrite <- (length_fmap (fun g => GainStage.setGainDb g GainStage.ctor) gains) at 1.
    change (fun w stage => stage_prepare stage sampleRate maxBlockSize w)
      with (fun (w : list GainStage.t) (j : nat) =>
              alter (GainStage.prepare sampleRate maxBlockSize) j w).
    rewrite foldl_alter_all, <- list_fmap_compose. reflexivity. }
  rewrite Hstore.
  split; [|split; [exact HnC|split; [exact Hreg|split]]].
  - exact Hwf.
  - apply Forall_fmap, Forall_forall. intros g _.
    apply (prepare_after_set_settled g sampleRate maxBlockSize).
  - rewrite <- list_fmap_compose. apply list_fmap_ext. intros i g _. reflexivity.
Qed.

Lemma linear_of_db_in_range (g : R) :
  -60 <= g <= 24 -> linear_of_db g = pow10 (g / 20).
Proof.
  intros Hg. unfold linear_of_db, GainStage.getGainLinear, GainStage.setGainDb,
    GainStage.kMinDb, GainStage.kMaxDb, GainStage.kMinLin, GainStage.dbToLinear.
  simpl. rewrite std_max_Rmax. now apply gain_target_in_range.
Qed.

Lemma foldl_ext_in {A B : Type} (f g : A -> B -> A) (l : list B) (a : A) :
  (forall a b, In b l -> f a b = g a b) -> foldl f a l = foldl g a l.
Proof.
  revert a; induction l as [|b l IH]; intros a Hfg; [reflexivity|].
  simpl. rewrite Hfg by now left. apply IH. intros a' b' Hb'. apply Hfg. now right.
Qed.

Lemma foldl_seq_lookup (vals : list R) (f0 : R) (n : nat) :
  (n <= length vals)%nat ->
  foldl (fun acc j => acc * (vals !!! j)) f0 (seq 0 n)
  = foldl (fun acc x => acc * x) f0 (take n vals).
Proof.
  induction n as [|n IH]; intros Hn; [reflexivity|].
  destruct (lookup_lt_is_Some_2 vals n) as [x Hx]; [lia|].
  rewrite seq_S, foldl_app, (take_S_r _ _ _ Hx), foldl_app, IH by lia.
  simpl. now rewrite (list_lookup_total_correct _ _ _ Hx).
Qed.

Lemma chain_factor_store (gains : list R) (store : list GainStage.t) (f0 : R) :
  (fun g => Atomic.value (GainStage.targetGainLinear_ g)) <$> store
  = linear_of_db <$> gains ->
  foldl (fun acc j => acc * Atomic.value (GainStage.targetGainLinear_ (store !!! j)))
        f0 (seq 0 (length gains))
  = foldl (fun acc g => acc * linear_of_db g) f0 gains.
Proof.
  intros Hst.
  assert (Hlen : length store = length gains).
  { apply (f_equal length) in Hst. now rewrite !length_fmap in Hst. }
  rewrite (foldl_ext_in _
             (fun acc j => acc * ((linear_of_db <$> gains) !!! j))).
  - rewrite foldl_seq_lookup by now rewrite length_fmap.
    rewrite take_ge by now rewrite length_fmap.
    generalize f0. clear. induction gains as [|g gains IH]; intros f0; [reflexivity|].
    simpl. apply IH.
  - intros acc j Hj. apply in_seq in Hj. f_equal.
    rewrite <- Hst.
    now rewrite (list_lookup_total_fmap
                   (fun g => Atomic.value (GainStage.targetGainLinear_ g)) store j)
      by lia.
Qed.

Lemma pipeline_blocks_gain_chain
  (p : Pipeline.t nat Empty_set) (stages : list nat) (factor : R)
  (blocks : list (list R)) (store : list GainStage.t) :
  Pipeline.wf p -> Pipeline.numControllers_ p = 0%Z ->
  registered_stages p = stages ->
  (forall j, In j stages -> (j < length store)%nat) ->
  Forall settled store ->
  foldl (fun acc j => acc * Atomic.value (GainStage.targetGainLinear_ (store !!! j)))
        1 stages = factor ->
  exists store',
    pipeline_blocks p store blocks
    = Some (store', (fun b : list R => (fun x => x * factor) <$> b) <$> blocks).
Proof.
  intros Hwf HnC Hreg Hok Hset Hfactor.
  revert store Hok Hset Hfactor.
  induction blocks as [|b blocks IH]; intros store Hok Hset Hfactor.
  - exists store. reflexivity.
  - simpl. rewrite (process_without_controllers p b _ store Hwf HnC), Hreg. simpl.
    destruct (gain_store_chain stages store b (Z.of_nat (length b)) Hset Hok)
      as (Hb & Hset' & Htg).
    cbv zeta in Hb, Hset', Htg. rewrite Hfactor in Hb.
    rewrite Nat2Z.id, firstn_all, drop_all, app_nil_r in Hb.
    destruct (foldl _ (store, b) stages) as [store1 out] eqn:Hfold.
    simpl in Hb, Hset', Htg. subst out.
    assert (Hlen : length store1 = length store).
    { apply (f_equal length) in Htg. now rewrite !length_fmap in Htg. }
    destruct (IH store1) as [store' Hrest].
    + intros j Hj. rewrite Hlen. now apply Hok.
    + exact Hset'.
    + rewrite <- Hfactor. apply foldl_ext_in. intros acc j Hj. f_equal.
      assert (Hj' : (j < length store)%nat) by now apply Hok.
      apply (f_equal (fun l => l !!! j)) in Htg.
      rewrite (list_lookup_total_fmap
                 (fun g => Atomic.value (GainStage.targetGainLinear_ g)) store1 j),
              (list_lookup_total_fmap
                 (fun g => Atomic.value (GainStage.targetGainLinear_ g)) store j)
        in Htg by lia.
      exact Htg.
    + rewrite Hrest. simpl. now exists store'.
Qed.

Lemma linear_of_db_0 : linear_of_db 0 = 1.
Proof.
  rewrite linear_of_db_in_range by lra.
  replace (0 / 20) with 0 by lra. apply pow10_0.
Qed.

Lemma chain_factor_unity (n : nat) (f0 : R) :
  foldl (fun acc g => acc * linear_of_db g) f0 (replicate n 0) = f0.
Proof.
  revert f0; induction n as [|n IH]; intros f0; [reflexivity|].
  cbn [replicate foldl]. rewrite IH, linear_of_db_0. lra.
Qed.

(** X24. The set-up of the unity pass-through test, for any number of
    stages up to 16: gain stages set to 0 dB, added to a pipeline and
    then prepared return every block of every length sample for sample
    as it went in, from the first sample of the first block on.  (At
    0 dB the stored gain and the smoother both sit on exactly 1.) *)
Theorem gain_chain_unity_passthrough
  (n : nat) (sampleRate : R) (maxBlockSize : Z) (blocks : list (list R)) :
  (n <= 16)%nat ->
  exists p store store',
    gain_chain_setup (replicate n 0) sampleRate maxBlockSize = Some (p, store) /\
    Pipeline.numStages p = Z.of_nat n /\
    Pipeline.numControllers p = 0%Z /\
    Forall (fun g => (GainStage.getGainLinear g).1 = 1) store /\
    pipeline_blocks p store blocks = Some (store', blocks).
Proof.
  intros Hn.
  destruct (gain_chain_setup_spec (replicate n 0) sampleRate maxBlockSize)
    as (p & store & Hsetup & Hwf & HnC & Hreg & Hset & Htg);
    [now rewrite length_replicate|].
  rewrite length_replicate in Hreg.
  assert (Hstore : length store = n).
  { apply (f_equal length) in Htg.
    now rewrite !length_fmap, length_replicate in Htg. }
  destruct (pipeline_blocks_gain_chain p (seq 0 n) 1 blocks store)
    as [store' Hrun]; try assumption.
  - intros j Hj. apply in_seq in Hj. lia.
  - rewrite <- (length_replicate n 0) at 1.
    rewrite (chain_factor_store (replicate n 0) store 1 Htg).
    apply chain_factor_unity.
  - exists p, store, store'. split; [exact Hsetup|].
    split.
    { pose proof (registered_stages_length _ Hwf) as Hlen.
      rewrite Hreg, length_seq in Hlen.
      destruct Hwf as ((Hlo & _) & _). unfold Pipeline.numStages. lia. }
    split; [exact HnC|].
    split.
    { apply Forall_lookup_2. intros i g Hg.
      apply (f_equal (fun l => l !! i)) in Htg.
      rewrite !list_lookup_fmap, Hg in Htg.
      destruct (replicate n 0 !! i) as [z|] eqn:Hz; [|discriminate].
      apply lookup_replicate in Hz as [-> _].
      cbn [fmap option_fmap option_map] in Htg. injection Htg as Htg.
      rewrite linear_of_db_0 in Htg. exact Htg. }
    rewrite Hrun. do 2 f_equal.
    rewrite <- (list_fmap_id blocks) at 2. apply list_fmap_ext.
    intros i b _. simpl. apply fmap_mult_1.
Qed.

(** One stage at 0 dB prepared at 48 kHz for blocks of 128, the set-up
    of the test: two blocks of different length come back as they went
    in. *)
Lemma gain_chain_unity_passthrough_witness :
  exists p store store',
    gain_chain_setup [0] 48000 128 = Some (p, store) /\
    pipeline_blocks p store [[1; 2; 3]; [4; 5]] = Some (store', [[1; 2; 3]; [4; 5]]).
Proof.
  destruct (gain_chain_unity_passthrough 1 48000 128 [[1; 2; 3]; [4; 5]])
    as (p & store & store' & Hsetup & _ & _ & _ & Hrun); [lia|].
  exists p, store, store'. split; [exact Hsetup | exact Hrun].
Defined.

(** ** The LV2 wrapper *)


Lemma registry_default_master_gain :
  ParamRegistry.get ParamId.MasterGain_dB ParamRegistry.ctor = 0.
Proof.
  unfold ParamRegistry.get.
  replace (ParamId.static_cast_int ParamId.MasterGain_dB) with 30%Z by reflexivity.
  replace ((30 <? 0) || (30 >=? ParamRegistry.kNumParams))%Z with false by reflexivity.
  rewrite registry_ctor_values, kParamInfo_table. reflexivity.
Qed.











(** ** The gain and NAM chain *)

Section PluginChainFacts.

Context {Model : Type} `{!NeuralModel Model}.

Lemma plugin_ctor_setup (sampleRate : R) :
  PluginChain.ctor (Model := Model) sampleRate
  = p ← add_stages [PluginChain.MasterGainRef; PluginChain.NamRef]
          (@Pipeline.ctor PluginChain.StageRef Empty_set);
    Pipeline.prepare sampleRate 4096 p
      (PluginChain.mkStages
         (GainStage.setGainDb
            (ParamRegistry.get ParamId.MasterGain_dB ParamRegistry.ctor)
            GainStage.ctor)
         NamStage.ctor).
Proof. reflexivity. Qed.

Lemma plugin_ctor_spec (sampleRate : R) :
  exists p w0,
    PluginChain.ctor (Model := Model) sampleRate = Some (p, w0) /\
    Pipeline.wf p /\ Pipeline.numControllers_ p = 0%Z /\
    registered_stages p = [PluginChain.MasterGainRef; PluginChain.NamRef] /\
    w0 = PluginChain.mkStages
           (GainStage.prepare sampleRate 4096
              (GainStage.setGainDb
                 (ParamRegistry.get ParamId.MasterGain_dB ParamRegistry.ctor)
                 GainStage.ctor))
           (NamStage.prepare sampleRate 4096 NamStage.ctor).
Proof.
  rewrite plugin_ctor_setup.
  pose proof (add_stages_ctor (CtrlPtr := Empty_set)
                [PluginChain.MasterGainRef; PluginChain.NamRef]) as Hadd.
  destruct (Nat.leb_spec (length [PluginChain.MasterGainRef; PluginChain.NamRef]) 16)
    as [_ | Hgt]; [|simpl in Hgt; lia].
  destruct Hadd as (p & Hp & _).
  destruct (registered_stages_add_stages _ _ Hp) as (Hreg & HnC & Hwf).
  rewrite Hp. cbn [mbind option_bind].
  rewrite (pipeline_prepare_fold p sampleRate 4096 _ Hwf), Hreg.
  eexists _, _. split; [reflexivity|].
  split; [exact Hwf|]. split; [exact HnC|]. split; [exact Hreg|].
  reflexivity.
Qed.

(** X27. The chain the constructor of the model-loading plugin builds
    is master gain first, NAM second, with no controller: every block
    goes through [GainStage::process] and what comes out through
    [NamStage::process], on the same buffer and with the same sample
    count.  Preparing it sizes the NAM scratch buffer for 4096 samples,
    and as built it has no model, so a block through the new plugin
    comes back unchanged.  While no model is active or pending the chain
    is the master gain alone. *)
Theorem plugin_chain_gain_then_nam (sampleRate : R) :
  exists p w0,
    PluginChain.ctor (Model := Model) sampleRate = Some (p, w0) /\
    Pipeline.numStages p = 2%Z /\
    Pipeline.numControllers p = 0%Z /\
    length (NamStage.outputBuffer_ (PluginChain.nam w0)) = 4096%nat /\
    NamStage.maxBlockSize_ (PluginChain.nam w0) = 4096%Z /\
    NamStage.hasModel (PluginChain.nam w0) = false /\
    (forall (buffer : list R) (numSamples : Z),
       exists w1, Pipeline.process buffer numSamples p w0 = Some (w1, buffer)) /\
    (forall (w : PluginChain.Stages Model) (buffer : list R) (numSamples : Z),
       let r1 := GainStage.process buffer numSamples (PluginChain.masterGain w) in
       let r2 := NamStage.process r1.2 numSamples (PluginChain.nam w) in
       Pipeline.process buffer numSamples p w
       = Some (PluginChain.mkStages r1.1 r2.1, r2.2) /\
       (NamStage.hasModel (PluginChain.nam w) = false ->
        NamStage.modelPending_ (PluginChain.nam w) = false ->
        Pipeline.process buffer numSamples p w
        = Some (PluginChain.mkStages r1.1 (PluginChain.nam w), r1.2))).
Proof.
  destruct (plugin_ctor_spec sampleRate) as (p & w0 & Hctor & Hwf & HnC & Hreg & Hw0).
  exists p, w0. split; [exact Hctor|].
  assert (Hproc : forall (w : PluginChain.Stages Model) (buffer : list R)
                    (numSamples : Z),
            Pipeline.process buffer numSamples p w
            = Some (PluginChain.mkStages
                      (GainStage.process buffer numSamples (PluginChain.masterGain w)).1
                      (NamStage.process
                         (GainStage.process buffer numSamples
                            (PluginChain.masterGain w)).2
                         numSamples (PluginChain.nam w)).1,
                    (NamStage.process
                       (GainStage.process buffer numSamples
                          (PluginChain.masterGain w)).2
                       numSamples (PluginChain.nam w)).2)).
  { intros w buffer numSamples.
    rewrite (process_without_controllers p buffer numSamples w Hwf HnC), Hreg.
    reflexivity. }
  split.
  { pose proof (registered_stages_length _ Hwf) as Hlen. rewrite Hreg in Hlen.
    destruct Hwf as ((Hlo & _) & _). unfold Pipeline.numStages.
    simpl in Hlen. lia. }
  split; [exact HnC|].
  split.
  { rewrite Hw0. unfold NamStage.prepare.
    cbn [PluginChain.nam NamStage.outputBuffer_].
    rewrite length_replicate. lia. }
  split; [rewrite Hw0; reflexivity|].
  split; [rewrite Hw0; reflexivity|].
  split.
  - intros buffer numSamples. rewrite Hproc. eexists. f_equal. f_equal.
    rewrite nam_process_no_model by (rewrite Hw0; reflexivity).
    cbn [snd].
    destruct (prepare_after_set_settled
                (ParamRegistry.get ParamId.MasterGain_dB ParamRegistry.ctor)
                sampleRate 4096) as [Hs Htg].
    cbv zeta in Hs, Htg.
    destruct (gain_process_settled_block _ buffer numSamples Hs) as (Hb & _).
    cbv zeta in Hb.
    rewrite Hw0. cbn [PluginChain.masterGain].
    rewrite Hb, Htg, registry_default_master_gain, linear_of_db_0. apply scale_one.
  - intros w buffer numSamples. cbv zeta. split; [apply Hproc|].
    intros Hhas Hflag. rewrite Hproc.
    rewrite nam_process_no_model; [reflexivity | exact Hflag |].
    unfold NamStage.hasModel in Hhas.
    destruct (NamStage.model_ (PluginChain.nam w)); [discriminate | reflexivity].
Qed.

End PluginChainFacts.

(** The new plugin at 48 kHz: a block of three through its chain leaves
    the NAM stage as it was and the samples as the master gain left
    them. *)
Lemma plugin_chain_gain_then_nam_witness :
  exists p w0,
    PluginChain.ctor (Model := R) 48000 = Some (p, w0) /\
    Pipeline.process [1; 2; 3] 3 p w0
    = Some (PluginChain.mkStages
              (GainStage.process [1; 2; 3] 3 (PluginChain.masterGain w0)).1
              (PluginChain.nam w0),
            (GainStage.process [1; 2; 3] 3 (PluginChain.masterGain w0)).2).
Proof.
  destruct (plugin_chain_gain_then_nam (Model := R) 48000)
    as (p & w0 & Hctor & _ & _ & _ & _ & Hhas & _ & Hgen).
  exists p, w0. split; [exact Hctor|].
  destruct (Hgen w0 [1; 2; 3] 3%Z) as [_ Hwire].
  apply Hwire; [exact Hhas|].
  destruct (plugin_ctor_spec (Model := R) 48000) as (p' & w0' & Hctor' & _ & _ & _ & Hw0).
  rewrite Hctor in Hctor'. injection Hctor' as _ <-. rewrite Hw0. reflexivity.
Defined.
